(** * Incense session timer: countdown state machine, session history and
    daily quote selector of [src/incense-timer/src/app/page.tsx].

    The development is a shallow embedding.  JavaScript numbers that the
    program computes with (seconds, millisecond timestamps, list indices) are
    integers and are modelled by [Z]; the two places where the program meets
    [NaN] ([parseInt] of an empty string, the comparator of [sort]) model it
    by [None].  Values read back from [localStorage] are untyped at run time
    (the TypeScript annotation [SessionRecord[]] on [JSON.parse] is not
    checked), so the history is a list of run-time values [jsval].

    Effects are threaded through a small state-and-exception monad [M] over a
    [World]: the browser window with its [localStorage], the console, and a
    counter of chime invocations.  React is taken with its production
    semantics: a state updater runs once per transition, the handlers and
    the interval callback see the state of the latest render.  The clock
    reading [Date.now()] of a tick is an input of that tick. *)

From Stdlib Require Import ZArith Lia String Ascii List Permutation.
From stdpp Require Import base tactics option list gmap strings pretty.

Local Set Warnings "-register-all".

Local Open Scope string_scope.
Local Open Scope list_scope.
Local Open Scope Z_scope.

(** ** Run-time values *)

Module JS.

(** A value as [JSON.parse] can produce it.  Numbers are integers, as all
    numbers are that the program computes itself; fractions and the numbers
    that are not finite ([JSON.parse] reads [1e999] as [Infinity], which
    [JSON.stringify] prints as [null]) are outside the model, and statements
    about stored numbers are statements about integers. *)
Inductive jsval : Type :=
| JNull
| JBool (b : bool)
| JNum (n : Z)
| JStr (s : string)
| JArr (items : list jsval)
| JObj (fields : list (string * jsval)).

(** Errors that the program can meet. *)
Inductive exn : Type :=
| SyntaxError
| TypeError
| SecurityError
| AudioError.

(** First binding of [k] in an object literal. *)
Fixpoint assoc (k : string) (fields : list (string * jsval)) : option jsval :=
  match fields with
  | [] => None
  | (k', v) :: rest => if String.eqb k k' then Some v else assoc k rest
  end.

(** [typeof v]; [None] stands for [undefined]. *)
Definition typeof (v : option jsval) : string :=
  match v with
  | None => "undefined"
  | Some JNull => "object"
  | Some (JBool _) => "boolean"
  | Some (JNum _) => "number"
  | Some (JStr _) => "string"
  | Some (JArr _) => "object"
  | Some (JObj _) => "object"
  end.

(** The numeric value of a data property, when it has one. *)
Definition num_prop (k : string) (v : jsval) : option Z :=
  match v with
  | JObj fields =>
      match assoc k fields with
      | Some (JNum n) => Some n
      | _ => None
      end
  | _ => None
  end.

End JS.
Export JS.

(** ** The world and the effect monad *)

Record Window : Type := mkWindow {
  (** contents of [window.localStorage] *)
  localStorage : gmap string string;
  (** [true] when reading the storage raises (access denied, backend fault) *)
  storage_read_fault : bool;
  (** [true] when the Web Audio calls of the chime go through *)
  audio_ok : bool
}.

Record World : Type := mkWorld {
  (** [None] when [typeof window === "undefined"] (server-side rendering) *)
  window : option Window;
  (** arguments of the [console.error] calls, oldest first *)
  console : list (string * exn);
  (** how many times the chime trigger has been invoked *)
  chime_calls : nat
}.

Inductive result (A : Type) : Type :=
| Ok (a : A)
| Throw (e : exn).
Arguments Ok {A} a.
Arguments Throw {A} e.

Definition M (A : Type) : Type := World -> result A * World.

Definition ret {A} (a : A) : M A := fun w => (Ok a, w).

Definition bind {A B} (m : M A) (k : A -> M B) : M B :=
  fun w =>
    match m w with
    | (Ok a, w') => k a w'
    | (Throw e, w') => (Throw e, w')
    end.

Definition throw {A} (e : exn) : M A := fun w => (Throw e, w).

(** [try { body } catch (error) { handler error }] *)
Definition try_catch {A} (body : M A) (handler : exn -> M A) : M A :=
  fun w =>
    match body w with
    | (Ok a, w') => (Ok a, w')
    | (Throw e, w') => handler e w'
    end.

Notation "x <- m ;; k" := (bind m (fun x => k))
  (at level 100, m at next level, right associativity).
Notation "m ;;; k" := (bind m (fun _ => k))
  (at level 100, right associativity).

Definition get_window : M (option Window) := fun w => (Ok (window w), w).

Definition console_error (msg : string) (e : exn) : M unit :=
  fun w => (Ok tt, mkWorld (window w) (console w ++ [(msg, e)]) (chime_calls w)).

(** [window.localStorage.getItem(key)] *)
Definition localStorage_getItem (key : string) : M (option string) :=
  fun w =>
    match window w with
    | None => (Throw TypeError, w)
    | Some win =>
        if storage_read_fault win then (Throw SecurityError, w)
        else (Ok (localStorage win !! key), w)
    end.

(** [window.localStorage.setItem(key, value)].  The storage of the model
    takes every write, also one whose reads are refused
    ([storage_read_fault] is about [getItem] alone).  In a browser a write
    can be refused (the quota is used up, access is denied), and
    [persistHistory] has no handler for that: such a write ends the page.
    Runs with a refused write are outside the model, and what is proved of
    a run that writes is proved for a storage that takes the write. *)
Definition localStorage_setItem (key value : string) : M unit :=
  fun w =>
    match window w with
    | None => (Throw TypeError, w)
    | Some win =>
        (Ok tt,
         mkWorld
           (Some (mkWindow (<[key := value]> (localStorage win))
                           (storage_read_fault win) (audio_ok win)))
           (console w) (chime_calls w))
    end.

(** ** The JSON codec of the platform

    [JSON.parse] and [JSON.stringify] belong to the JavaScript platform, not
    to the repository.  The program is embedded over any codec; [None] is a
    [SyntaxError].  The one law every codec obeys here is that the empty
    string is not a JSON text. *)

Class JSON : Type := mkJSON {
  JSON_parse : string -> option jsval;
  JSON_stringify : jsval -> string;
  JSON_parse_empty : JSON_parse "" = None
}.

(** ** The program *)

Definition STORAGE_KEY : string := "kodou-timer-history-v1".
Definition DEFAULT_DURATION : Z := 25 * 60.

Record SessionRecord : Type := mkSessionRecord {
  id : string;
  startedAt : Z;
  endedAt : Z;
  duration : Z
}.

(** The object that a [SessionRecord] literal evaluates to. *)
Definition obj (r : SessionRecord) : jsval :=
  JObj [("id", JStr (id r));
        ("startedAt", JNum (startedAt r));
        ("endedAt", JNum (endedAt r));
        ("duration", JNum (duration r))].

(** [buildSessionRecord]; [now] is the value of [Date.now()]. *)
Definition buildSessionRecord (now : Z) (durationInSeconds : Z) : SessionRecord :=
  let endedAt := now in
  {| id := pretty endedAt;
     startedAt := endedAt - durationInSeconds * 1000;
     endedAt := endedAt;
     duration := durationInSeconds |}.

(** [entry.k]: reading a property of [null] raises a [TypeError]; primitives
    and arrays have no data property of the names the program reads. *)
Definition get_prop (k : string) (entry : jsval) : M (option jsval) :=
  match entry with
  | JNull => throw TypeError
  | JObj fields => ret (assoc k fields)
  | _ => ret None
  end.

(** The callback of [filter] in [loadHistory]; [&&] evaluates its right
    operand only when the left one holds. *)
Definition entry_is_valid (entry : jsval) : M bool :=
  e <- get_prop "endedAt" entry ;;
  if String.eqb (typeof e) "number" then
    d <- get_prop "duration" entry ;;
    ret (String.eqb (typeof d) "number")
  else ret false.

(** [items.filter(p)] for a callback that may raise. *)
Fixpoint filterM (p : jsval -> M bool) (items : list jsval) : M (list jsval) :=
  match items with
  | [] => ret []
  | x :: rest =>
      keep <- p x ;;
      kept <- filterM p rest ;;
      ret (if keep then x :: kept else kept)
  end.

(** [parsed.filter(p)]: only arrays have a [filter] method. *)
Definition Array_filter (p : jsval -> M bool) (parsed : jsval) : M (list jsval) :=
  match parsed with
  | JArr items => filterM p items
  | _ => throw TypeError
  end.

(** The comparator [(a, b) => b.endedAt - a.endedAt]; a [NaN] result counts
    as [+0] for [sort]. *)
Definition by_endedAt_desc (a b : jsval) : Z :=
  match num_prop "endedAt" b, num_prop "endedAt" a with
  | Some x, Some y => x - y
  | _, _ => 0
  end.

(** [Array.prototype.sort] is stable: an element moves in front of another
    one only when the comparator is positive for (earlier, later). *)
Fixpoint sort_insert (cmp : jsval -> jsval -> Z) (x : jsval) (sorted : list jsval)
  : list jsval :=
  match sorted with
  | [] => [x]
  | y :: rest =>
      if cmp x y <=? 0 then x :: y :: rest
      else y :: sort_insert cmp x rest
  end.

Definition Array_sort (cmp : jsval -> jsval -> Z) (items : list jsval) : list jsval :=
  foldr (sort_insert cmp) [] items.

Section HistoryStore.
Context `{codec : JSON}.

Definition JSON_parse_or_throw (raw : string) : M jsval :=
  match JSON_parse raw with
  | Some v => ret v
  | None => throw SyntaxError
  end.

Definition loadHistory : M (list jsval) :=
  win <- get_window ;;
  match win with
  | None => ret []
  | Some _ =>
      try_catch
        (raw <- localStorage_getItem STORAGE_KEY ;;
         match raw with
         | None => ret []
         | Some "" => ret []
         | Some raw =>
             parsed <- JSON_parse_or_throw raw ;;
             kept <- Array_filter entry_is_valid parsed ;;
             ret (Array_sort by_endedAt_desc kept)
         end)
        (fun error =>
           console_error "Failed to parse history" error ;;;
           ret [])
  end.

Definition persistHistory (history : list jsval) : M unit :=
  win <- get_window ;;
  match win with
  | None => ret tt
  | Some _ => localStorage_setItem STORAGE_KEY (JSON_stringify (JArr history))
  end.

End HistoryStore.

(** The Web Audio calls inside [trigger]: they go through or one of them
    raises. *)
Definition play_bell : M unit :=
  win <- get_window ;;
  match win with
  | Some w => if audio_ok w then ret tt else throw AudioError
  | None => throw TypeError
  end.

(** [useBellChime]'s [trigger]: the whole body sits in [try]/[catch].  The
    counter records the invocation itself. *)
Definition count_chime : M unit :=
  fun w => (Ok tt, mkWorld (window w) (console w) (S (chime_calls w))).

Definition chime : M unit :=
  count_chime ;;;
  try_catch play_bell (fun error => console_error "Failed to play chime" error).

(** React state of [Home]. *)
Record Home : Type := mkHome {
  totalDuration : Z;
  remaining : Z;
  isRunning : bool;
  history : list jsval
}.

Definition setRemaining (v : Z) (s : Home) : Home :=
  mkHome (totalDuration s) v (isRunning s) (history s).
Definition setIsRunning (b : bool) (s : Home) : Home :=
  mkHome (totalDuration s) (remaining s) b (history s).
Definition setTotalDuration (v : Z) (s : Home) : Home :=
  mkHome v (remaining s) (isRunning s) (history s).
Definition setHistory (h : list jsval) (s : Home) : Home :=
  mkHome (totalDuration s) (remaining s) (isRunning s) h.

Definition handleStart (s : Home) : Home :=
  let s := if remaining s <=? 0 then setRemaining (totalDuration s) s else s in
  setIsRunning true s.

Definition handlePause (s : Home) : Home :=
  setIsRunning false s.

Definition handleReset (s : Home) : Home :=
  setRemaining (totalDuration s) (setIsRunning false s).

Definition handleDurationChange (value : Z) (s : Home) : Home :=
  setIsRunning false (setRemaining value (setTotalDuration value s)).

Section Timer.
Context `{codec : JSON}.

(** The state updater that a completed countdown hands to [setHistory]. *)
Definition record_completion (now : Z) (total : Z) (prevHistory : list jsval)
  : M (list jsval) :=
  let nextHistory := take 20 (obj (buildSessionRecord now total) :: prevHistory) in
  persistHistory nextHistory ;;;
  ret nextHistory.

(** One firing of the interval callback.  The interval exists only while
    [isRunning]; [now] is the clock reading of this firing.  After a change
    of [history] the effect on [[history]] persists it once more. *)
Definition tick (now : Z) (s : Home) : M Home :=
  if negb (isRunning s) then ret s
  else if remaining s <=? 1 then
    let s := setIsRunning false s in
    nextHistory <- record_completion now (totalDuration s) (history s) ;;
    chime ;;;
    persistHistory nextHistory ;;;
    ret (setRemaining 0 (setHistory nextHistory s))
  else ret (setRemaining (remaining s - 1) s).

(** The first render and its effects: the history is loaded, the effect on
    [[history]] persists the initial empty list and then the loaded one. *)
Definition mount : M Home :=
  loaded <- loadHistory ;;
  persistHistory [] ;;;
  persistHistory loaded ;;;
  ret (mkHome DEFAULT_DURATION DEFAULT_DURATION false loaded).

Fixpoint ticks (clock : list Z) (s : Home) : M Home :=
  match clock with
  | [] => ret s
  | now :: later => s' <- tick now s ;; ticks later s'
  end.

End Timer.

(** ** The daily quote *)

Record QuoteEntry : Type := mkQuote {
  text : string;
  author : string
}.

Definition QUOTES : list QuoteEntry :=
  [ {| text := "Wherever you are, be all there.";
       author := "Jim Elliot" |};
    {| text := "The fragrance of flowers spreads only in the direction of the wind. But the goodness of a person spreads in all directions.";
       author := "Chanakya" |};
    {| text := "Each moment is all we need, not more.";
       author := "Mother Teresa" |};
    {| text := "One incense stick can change the air of a room. One focused session can transform a day.";
       author := "Unknown" |};
    {| text := "Silence isn’t empty, it’s full of answers.";
       author := "Zen Proverb" |};
    {| text := "Simplicity is the keynote of all true elegance.";
       author := "Coco Chanel" |} ].

(** *** The platform's calendar ([Date.prototype.toISOString])

    Time values are milliseconds since the epoch, in UTC. *)

Module DateModel.

Definition msPerDay : Z := 86400000.

(** ECMAScript's [Day(t)] and [TimeWithinDay(t)]. *)
Definition Day (t : Z) : Z := t / msPerDay.
Definition TimeWithinDay (t : Z) : Z := t mod msPerDay.

(** ECMAScript's [LocalTime(t)] for a zone that is [tza] milliseconds ahead
    of UTC. *)
Definition LocalTime (tza : Z) (t : Z) : Z := t + tza.

(** Year, month (1 to 12) and day of the month of a day number, in the
    proleptic Gregorian calendar. *)
Definition civil_from_days (day : Z) : Z * Z * Z :=
  let z := day + 719468 in
  let era := z / 146097 in
  let doe := z mod 146097 in
  let yoe := (doe - doe / 1460 + doe / 36524 - doe / 146096) / 365 in
  let doy := doe - (365 * yoe + yoe / 4 - yoe / 100) in
  let mp := (5 * doy + 2) / 153 in
  let d := doy - (153 * mp + 2) / 5 + 1 in
  let m := if mp <? 10 then mp + 3 else mp - 9 in
  let y := yoe + era * 400 + (if m <=? 2 then 1 else 0) in
  (y, m, d).

Fixpoint zeros (k : nat) : string :=
  match k with
  | O => ""
  | S k' => String "0" (zeros k')
  end.

(** [s.padStart(n, "0")] *)
Definition padStart0 (n : nat) (s : string) : string :=
  zeros (n - String.length s) ++ s.

(** Four digits for the years 0 to 9999, a sign and six digits otherwise. *)
Definition iso_year (y : Z) : string :=
  if (0 <=? y) && (y <=? 9999) then padStart0 4 (pretty y)
  else (if y <? 0 then "-" else "+") ++ padStart0 6 (pretty (Z.abs y)).

Definition iso_date (day : Z) : string :=
  let '(y, m, d) := civil_from_days day in
  iso_year y ++ "-" ++ padStart0 2 (pretty m) ++ "-" ++ padStart0 2 (pretty d).

Definition iso_time (ms : Z) : string :=
  padStart0 2 (pretty (ms / 3600000)) ++ ":" ++
  padStart0 2 (pretty ((ms / 60000) mod 60)) ++ ":" ++
  padStart0 2 (pretty ((ms / 1000) mod 60)) ++ "." ++
  padStart0 3 (pretty (ms mod 1000)).

Definition toISOString (t : Z) : string :=
  iso_date (Day t) ++ "T" ++ iso_time (TimeWithinDay t) ++ "Z".

End DateModel.
Export DateModel.

(** [s.split(sep)] for a one-character separator. *)
Fixpoint split_on (sep : ascii) (s : string) : list string :=
  match s with
  | EmptyString => [""]
  | String c rest =>
      if Ascii.eqb c sep then "" :: split_on sep rest
      else match split_on sep rest with
           | part :: parts => String c part :: parts
           | [] => [String c ""]
           end
  end.

Definition digit_of (c : ascii) : option Z :=
  let n := Z.of_N (N_of_ascii c) in
  if (48 <=? n) && (n <=? 57) then Some (n - 48) else None.

(** The longest run of decimal digits at the front of [s], read as a number;
    [acc] is [None] until a digit has been seen. *)
Fixpoint leading_digits (acc : option Z) (s : string) : option Z :=
  match s with
  | EmptyString => acc
  | String c rest =>
      match digit_of c with
      | Some d => leading_digits (Some (default 0 acc * 10 + d)) rest
      | None => acc
      end
  end.

Definition is_space (c : ascii) : bool :=
  let n := N_of_ascii c in
  (n =? 32)%N || ((9 <=? n)%N && (n <=? 13)%N).

Fixpoint skip_spaces (s : string) : string :=
  match s with
  | String c rest => if is_space c then skip_spaces rest else s
  | EmptyString => s
  end.

(** [parseInt(s, 10)]; [None] is [NaN]. *)
Definition parseInt10 (s : string) : option Z :=
  match skip_spaces s with
  | String "-" rest => Z.opp <$> leading_digits None rest
  | String "+" rest => leading_digits None rest
  | s' => leading_digits None s'
  end.

(** Addition of numbers, one of which may be [NaN]. *)
Definition num_add (a b : option Z) : option Z :=
  match a, b with
  | Some x, Some y => Some (x + y)
  | _, _ => None
  end.

(** The body of the [useMemo] that defines [todaysQuote]; [t] is the time
    value of [new Date()].  [None] is [undefined]. *)
Definition todaysQuote (t : Z) : option QuoteEntry :=
  let dayIndex := substring 0 10 (toISOString t) in
  let hash :=
    fold_left (fun acc part => num_add acc (parseInt10 part))
              (split_on "-" dayIndex) (Some 0) in
  match hash with
  | None => None
  | Some h =>
      let i := Z.rem h (Z.of_nat (length QUOTES)) in
      if i <? 0 then None else QUOTES !! Z.to_nat i
  end.


(** ** A reference codec

    An executable JSON printer and parser for the values of [jsval], used to
    run the program on concrete storage contents.  Numbers are integers;
    a text with a fraction or an exponent is outside the model and rejected. *)

Module Codec.

Definition dquote : ascii := ascii_of_nat 34.
Definition backslash : ascii := ascii_of_nat 92.

Definition hex_digit (n : N) : ascii :=
  if (n <? 10)%N then ascii_of_N (48 + n) else ascii_of_N (87 + n).

Definition hex_value (c : ascii) : option N :=
  let n := N_of_ascii c in
  if (48 <=? n)%N && (n <=? 57)%N then Some (n - 48)%N
  else if (97 <=? n)%N && (n <=? 102)%N then Some (n - 87)%N
  else if (65 <=? n)%N && (n <=? 70)%N then Some (n - 55)%N
  else None.

(** The escape sequence of one character inside a string literal. *)
Definition escape_char (c : ascii) : string :=
  let n := N_of_ascii c in
  if Ascii.eqb c dquote then String backslash (String dquote "")
  else if Ascii.eqb c backslash then String backslash (String backslash "")
  else if (n =? 8)%N then String backslash "b"
  else if (n =? 9)%N then String backslash "t"
  else if (n =? 10)%N then String backslash "n"
  else if (n =? 12)%N then String backslash "f"
  else if (n =? 13)%N then String backslash "r"
  else if (n <? 32)%N then
    String backslash
      (String "u" (String "0" (String "0"
         (String (hex_digit (n / 16)) (String (hex_digit (n mod 16)) "")))))
  else String c "".

Fixpoint escape (s : string) : string :=
  match s with
  | EmptyString => ""
  | String c rest => escape_char c ++ escape rest
  end.

Definition quote (s : string) : string :=
  String dquote (escape s ++ String dquote "").

Fixpoint stringify (v : jsval) : string :=
  match v with
  | JNull => "null"
  | JBool true => "true"
  | JBool false => "false"
  | JNum n => pretty n
  | JStr s => quote s
  | JArr items => "[" ++ String.concat "," (map stringify items) ++ "]"
  | JObj fields =>
      "{" ++ String.concat ","
               (map (fun kv => match kv with
                               | (k, x) => (quote k ++ ":" ++ stringify x)%string
                               end) fields) ++ "}"
  end.

Definition is_ws (c : ascii) : bool :=
  let n := N_of_ascii c in
  (n =? 32)%N || (n =? 9)%N || (n =? 10)%N || (n =? 13)%N.

Fixpoint skip_ws (s : string) : string :=
  match s with
  | String c rest => if is_ws c then skip_ws rest else s
  | EmptyString => s
  end.

Fixpoint strip_prefix (p s : string) : option string :=
  match p, s with
  | EmptyString, _ => Some s
  | String a p', String b s' => if Ascii.eqb a b then strip_prefix p' s' else None
  | String _ _, EmptyString => None
  end.

(** Digits at the front of [s]: their value and what follows them. *)
Fixpoint read_digits (acc : option Z) (s : string) : option Z * string :=
  match s with
  | EmptyString => (acc, s)
  | String c rest =>
      match digit_of c with
      | Some d => read_digits (Some (default 0 acc * 10 + d)) rest
      | None => (acc, s)
      end
  end.

Definition starts_fraction (s : string) : bool :=
  match s with
  | String c _ => Ascii.eqb c "." || Ascii.eqb c "e" || Ascii.eqb c "E"
  | EmptyString => false
  end.

Definition leading_zero (s : string) : bool :=
  match s with
  | String "0" (String c _) => bool_decide (is_Some (digit_of c))
  | _ => false
  end.

Definition parse_unsigned (s : string) : option (Z * string) :=
  if leading_zero s then None
  else match read_digits None s with
       | (Some n, rest) => if starts_fraction rest then None else Some (n, rest)
       | (None, _) => None
       end.

Definition parse_number (s : string) : option (Z * string) :=
  match s with
  | String "-" rest =>
      match parse_unsigned rest with
      | Some (n, rest') => Some (- n, rest')
      | None => None
      end
  | _ => parse_unsigned s
  end.

Definition unescape (e : ascii) : option ascii :=
  if Ascii.eqb e dquote then Some dquote
  else if Ascii.eqb e backslash then Some backslash
  else if Ascii.eqb e "/" then Some "/"%char
  else if Ascii.eqb e "b" then Some (ascii_of_nat 8)
  else if Ascii.eqb e "t" then Some (ascii_of_nat 9)
  else if Ascii.eqb e "n" then Some (ascii_of_nat 10)
  else if Ascii.eqb e "f" then Some (ascii_of_nat 12)
  else if Ascii.eqb e "r" then Some (ascii_of_nat 13)
  else None.

(** The characters of a string literal after its opening quote, up to and
    including the closing one. *)
Fixpoint parse_string_body (s : string) : option (string * string) :=
  match s with
  | EmptyString => None
  | String c rest =>
      if Ascii.eqb c dquote then Some ("", rest)
      else if Ascii.eqb c backslash then
        match rest with
        | String "u" (String h3 (String h2 (String h1 (String h0 rest')))) =>
            match hex_value h3, hex_value h2, hex_value h1, hex_value h0 with
            | Some 0%N, Some 0%N, Some a, Some b =>
                match parse_string_body rest' with
                | Some (body, r) => Some (String (ascii_of_N (a * 16 + b)) body, r)
                | None => None
                end
            | _, _, _, _ => None
            end
        | String e rest' =>
            match unescape e, parse_string_body rest' with
            | Some c', Some (body, r) => Some (String c' body, r)
            | _, _ => None
            end
        | EmptyString => None
        end
      else if (N_of_ascii c <? 32)%N then None
      else match parse_string_body rest with
           | Some (body, r) => Some (String c body, r)
           | None => None
           end
  end.

(** A repeated member name overwrites the earlier value and keeps its
    place. *)
Fixpoint set_member (k : string) (v : jsval) (fields : list (string * jsval))
  : list (string * jsval) :=
  match fields with
  | [] => [(k, v)]
  | (k', v') :: rest =>
      if String.eqb k k' then (k', v) :: rest
      else (k', v') :: set_member k v rest
  end.

Definition members_to_object (members : list (string * jsval))
  : list (string * jsval) :=
  fold_left (fun fields kv => set_member (fst kv) (snd kv) fields) members [].

Definition first_is (c : ascii) (s : string) : option string :=
  match s with
  | String c' rest => if Ascii.eqb c c' then Some rest else None
  | EmptyString => None
  end.

Fixpoint parse_value (fuel : nat) (s : string) : option (jsval * string) :=
  match fuel with
  | O => None
  | S fuel =>
      match skip_ws s with
      | String "n" _ => (fun rest => (JNull, rest)) <$> strip_prefix "null" (skip_ws s)
      | String "t" _ => (fun rest => (JBool true, rest)) <$> strip_prefix "true" (skip_ws s)
      | String "f" _ => (fun rest => (JBool false, rest)) <$> strip_prefix "false" (skip_ws s)
      | String "[" rest =>
          match first_is "]" (skip_ws rest) with
          | Some rest' => Some (JArr [], rest')
          | None =>
              match parse_elements fuel rest with
              | Some (items, rest') => Some (JArr items, rest')
              | None => None
              end
          end
      | String "{" rest =>
          match first_is "}" (skip_ws rest) with
          | Some rest' => Some (JObj [], rest')
          | None =>
              match parse_members fuel rest with
              | Some (members, rest') =>
                  Some (JObj (members_to_object members), rest')
              | None => None
              end
          end
      | String c rest =>
          if Ascii.eqb c dquote then
            match parse_string_body rest with
            | Some (str, rest') => Some (JStr str, rest')
            | None => None
            end
          else match parse_number (String c rest) with
               | Some (n, rest') => Some (JNum n, rest')
               | None => None
               end
      | EmptyString => None
      end
  end
with parse_elements (fuel : nat) (s : string) : option (list jsval * string) :=
  match fuel with
  | O => None
  | S fuel =>
      match parse_value fuel s with
      | Some (v, rest) =>
          match skip_ws rest with
          | String "," rest' =>
              match parse_elements fuel rest' with
              | Some (vs, rest'') => Some (v :: vs, rest'')
              | None => None
              end
          | String "]" rest' => Some ([v], rest')
          | _ => None
          end
      | None => None
      end
  end
with parse_members (fuel : nat) (s : string)
  : option (list (string * jsval) * string) :=
  match fuel with
  | O => None
  | S fuel =>
      match first_is dquote (skip_ws s) with
      | Some s1 =>
          match parse_string_body s1 with
          | Some (k, s2) =>
              match first_is ":" (skip_ws s2) with
              | Some s3 =>
                  match parse_value fuel s3 with
                  | Some (v, rest) =>
                      match skip_ws rest with
                      | String "," rest' =>
                          match parse_members fuel rest' with
                          | Some (kvs, rest'') => Some ((k, v) :: kvs, rest'')
                          | None => None
                          end
                      | String "}" rest' => Some ([(k, v)], rest')
                      | _ => None
                      end
                  | None => None
                  end
              | None => None
              end
          | None => None
          end
      | None => None
      end
  end.

Definition parse (s : string) : option jsval :=
  match parse_value (S (String.length s)) s with
  | Some (v, rest) =>
      match skip_ws rest with
      | EmptyString => Some v
      | String _ _ => None
      end
  | None => None
  end.

End Codec.

#[export] Instance reference_codec : JSON :=
  {| JSON_parse := Codec.parse;
     JSON_stringify := Codec.stringify;
     JSON_parse_empty := eq_refl |}.

(** ** Vocabulary of the properties *)

(** The stick lengths that the slider offers, in minutes. *)
Definition stick_minutes : list Z := [5; 10; 15; 20; 25; 30; 35; 40; 45; 50; 55; 60].

(** The invariant of the timer state. *)
Definition timer_inv (s : Home) : Prop :=
  0 <= remaining s <= totalDuration s.

(** [start] as the specification words it: reseed when [remaining == 0],
    then run. *)
Definition spec_start (s : Home) : Home :=
  let s := if remaining s =? 0 then setRemaining (totalDuration s) s else s in
  setIsRunning true s.

(** The operations of the timer. *)
Inductive event : Type :=
| Start
| Pause
| Reset
| SetDuration (v : Z)
| Tick (now : Z).

(** A duration can be configured when it is not negative. *)
Definition event_ok (e : event) : Prop :=
  match e with
  | SetDuration v => 0 <= v
  | _ => True
  end.

Section Steps.
Context `{codec : JSON}.

Definition step (e : event) (s : Home) : M Home :=
  match e with
  | Start => ret (handleStart s)
  | Pause => ret (handlePause s)
  | Reset => ret (handleReset s)
  | SetDuration v => ret (handleDurationChange v s)
  | Tick now => tick now s
  end.

(** One session: [start], then one tick per clock reading. *)
Definition session (clock : list Z) (s : Home) : M Home :=
  ticks clock (handleStart s).

Fixpoint sessions (clocks : list (list Z)) (s : Home) : M Home :=
  match clocks with
  | [] => ret s
  | clock :: later => s' <- session clock s ;; sessions later s'
  end.

(** The array that the stored text denotes; empty when there is none. *)
Definition stored_array (w : World) : list jsval :=
  match window w with
  | Some win =>
      match localStorage win !! STORAGE_KEY with
      | Some raw =>
          match JSON_parse raw with
          | Some (JArr items) => items
          | _ => []
          end
      | None => []
      end
  | None => []
  end.

(** The world after [persistHistory history]. *)
Definition persisted (history : list jsval) (w : World) : World :=
  match window w with
  | None => w
  | Some win =>
      mkWorld
        (Some (mkWindow (<[STORAGE_KEY := JSON_stringify (JArr history)]> (localStorage win))
                        (storage_read_fault win) (audio_ok win)))
        (console w) (chime_calls w)
  end.

End Steps.

(** The world after one call of the chime. *)
Definition chimed (w : World) : World :=
  let failure :=
    match window w with
    | Some win => if audio_ok win then [] else [("Failed to play chime", AudioError)]
    | None => [("Failed to play chime", TypeError)]
    end in
  mkWorld (window w) (console w ++ failure) (S (chime_calls w)).

(** The same world with the audio facility working or failing. *)
Definition with_audio (ok : bool) (w : World) : World :=
  mkWorld
    ((fun win => mkWindow (localStorage win) (storage_read_fault win) ok) <$> window w)
    (console w) (chime_calls w).

(** What the storage holds. *)
Definition storage_of (w : World) : option (gmap string string) :=
  localStorage <$> window w.

(** An entry passes the validation of [loadHistory]. *)
Definition numeric_fields (entry : jsval) : bool :=
  bool_decide (is_Some (num_prop "endedAt" entry))
  && bool_decide (is_Some (num_prop "duration" entry)).

(** [a] may stand in front of [b] in a list ordered by [endedAt]
    descending. *)
Definition not_older (a b : jsval) : bool :=
  match num_prop "endedAt" a, num_prop "endedAt" b with
  | Some x, Some y => y <=? x
  | _, _ => false
  end.

Definition newer (a b : jsval) : bool :=
  match num_prop "endedAt" a, num_prop "endedAt" b with
  | Some x, Some y => y <? x
  | _, _ => false
  end.

(** Every entry stands in relation [rel] to its successor. *)
Fixpoint chain (rel : jsval -> jsval -> bool) (h : list jsval) : bool :=
  match h with
  | a :: ((b :: _) as rest) => rel a b && chain rel rest
  | _ => true
  end.

Definition ordered_desc (h : list jsval) : bool := chain not_older h.
Definition strictly_desc (h : list jsval) : bool := chain newer h.

(** The invariant of the history. *)
Definition history_inv (h : list jsval) : Prop :=
  (length h <= 20)%nat /\ ordered_desc h = true.

(** The clock reading [now] is not earlier than the newest entry of [h]. *)
Definition not_before (now : Z) (h : list jsval) : bool :=
  match h with
  | [] => true
  | a :: _ =>
      match num_prop "endedAt" a with
      | Some x => x <=? now
      | None => false
      end
  end.

Fixpoint increasing (ts : list Z) : bool :=
  match ts with
  | a :: ((b :: _) as rest) => (a <? b) && increasing rest
  | _ => true
  end.

(** The world after [console.error(msg, e)]. *)
Definition logged (msg : string) (e : exn) (w : World) : World :=
  mkWorld (window w) (console w ++ [(msg, e)]) (chime_calls w).

(** The history entry of a session of [d] seconds that completes at clock
    reading [t]. *)
Definition session_entry (t d : Z) : jsval := obj (buildSessionRecord t d).

(** The clock reading at which a session completes: that of its last tick. *)
Definition completion_time (clock : list Z) : Z := default 0 (last clock).

(** ** Sample data *)

(** A browser whose storage holds [raw] under the key of the program. *)
Definition browser_with (raw : string) : World :=
  mkWorld (Some (mkWindow {[ STORAGE_KEY := raw ]} false true)) [] 0.

(** A browser with an empty storage. *)
Definition fresh_browser : World :=
  mkWorld (Some (mkWindow ∅ false true)) [] 0.

(** Twenty-one valid records, newest first. *)
Definition crowded_history : list jsval :=
  map (fun k => session_entry (Z.of_nat (22 - k) * 1000) 300) (seq 1 21).

(** A valid record behind a [null] entry. *)
Definition null_then_record : list jsval :=
  [JNull; session_entry 1715043845123 300].

(** ** The rest of the page: display helpers and event handlers of the
    markup *)

(** [Math.round(n / 60)] for an integer [n]: the nearest integer, a half
    rounding up. *)
Definition round_div60 (n : Z) : Z := (n + 30) / 60.

(** [formatTime]: [Math.floor(seconds / 60)] is the floored quotient and
    [seconds % 60] the remainder with the sign of [seconds]. *)
Definition formatTime (seconds : Z) : string :=
  let mins := seconds / 60 in
  let secs := Z.rem seconds 60 in
  padStart0 2 (pretty mins) ++ ":" ++ padStart0 2 (pretty secs).

(** [totalMinutes], the value that the slider shows. *)
Definition totalMinutes (s : Home) : Z :=
  Z.max 5 (round_div60 (totalDuration s)).

(** The [minutes] that the list of sessions shows for an entry:
    [Math.round(session.duration / 60)]; [None] when [duration] is not a
    number. *)
Definition sessionMinutes (session : jsval) : option Z :=
  round_div60 <$> num_prop "duration" session.

(** [onChange] of the slider; [value] is [Number(event.target.value)]. *)
Definition onDurationInput (value : Z) (s : Home) : Home :=
  handleDurationChange (value * 60) s.

(** [onClick] of the round button: [isRunning ? handlePause : handleStart]. *)
Definition onPlayPause (s : Home) : Home :=
  if isRunning s then handlePause s else handleStart s.

(** What can happen to the mounted page. *)
Inductive ui_event : Type :=
| PressPlayPause
| PressReset
| Slide (minutes : Z)
| Interval (now : Z).

(** The slider offers the values from 5 to 60 in steps of 5. *)
Definition ui_event_ok (e : ui_event) : Prop :=
  match e with
  | Slide minutes => minutes ∈ stick_minutes
  | _ => True
  end.

(** The tick [e] completes the countdown of [s]. *)
Definition completes (e : ui_event) (s : Home) : bool :=
  match e with
  | Interval _ => isRunning s && (remaining s <=? 1)
  | _ => false
  end.

Section Page.
Context `{codec : JSON}.

Definition ui_step (e : ui_event) (s : Home) : M Home :=
  match e with
  | PressPlayPause => ret (onPlayPause s)
  | PressReset => ret (handleReset s)
  | Slide minutes => ret (onDurationInput minutes s)
  | Interval now => tick now s
  end.

Fixpoint ui_run (events : list ui_event) (s : Home) : M Home :=
  match events with
  | [] => ret s
  | e :: later => s' <- ui_step e s ;; ui_run later s'
  end.

(** The page from its first render on. *)
Definition page (events : list ui_event) : M Home :=
  s <- mount ;; ui_run events s.

End Page.

(** The states that the page can be in. *)
Definition page_inv (s : Home) : Prop :=
  (exists minutes, minutes ∈ stick_minutes /\ totalDuration s = minutes * 60)
  /\ 0 <= remaining s <= totalDuration s
  /\ (isRunning s = true -> 1 <= remaining s).

(** The [id] of a history entry. *)
Definition entry_id (entry : jsval) : option jsval :=
  match entry with
  | JObj fields => assoc "id" fields
  | _ => None
  end.

(** The contents of the storage, when there is a window. *)
Definition stored_text (w : World) : option string :=
  match window w with
  | Some win => localStorage win !! STORAGE_KEY
  | None => None
  end.

(** The number of ticks in [events] that complete a countdown, starting
    from [s] (the events are run on the timer state alone). *)
Definition next_state (e : ui_event) (s : Home) : Home :=
  match e with
  | PressPlayPause => onPlayPause s
  | PressReset => handleReset s
  | Slide minutes => onDurationInput minutes s
  | Interval now =>
      if isRunning s then
        if remaining s <=? 1 then
          mkHome (totalDuration s) 0 false
            (take 20 (session_entry now (totalDuration s) :: history s))
        else setRemaining (remaining s - 1) s
      else s
  end.

Fixpoint completions (events : list ui_event) (s : Home) : nat :=
  match events with
  | [] => 0
  | e :: later =>
      ((if completes e s then 1 else 0) + completions later (next_state e s))%nat
  end.

Section PageWorld.
Context `{codec : JSON}.

(** The world after the event [e] in state [s]: only a completing tick
    writes. *)
Definition next_world (e : ui_event) (s : Home) (w : World) : World :=
  if completes e s then
    let next := history (next_state e s) in
    persisted next (chimed (persisted next w))
  else w.

(** The stored text is the print of the history [h]. *)
Definition synced (h : list jsval) (w : World) : Prop :=
  match window w with
  | Some win => localStorage win !! STORAGE_KEY = Some (JSON_stringify (JArr h))
  | None => True
  end.

End PageWorld.

(** [w'] differs from [w] at most in the text stored under the key of the
    program, in the console and in the count of chimes. *)
Definition same_elsewhere (w w' : World) : Prop :=
  match window w, window w' with
  | Some win, Some win' =>
      (forall k, k <> STORAGE_KEY -> localStorage win' !! k = localStorage win !! k)
      /\ storage_read_fault win' = storage_read_fault win
      /\ audio_ok win' = audio_ok win
  | None, None => True
  | _, _ => False
  end.

(** The two decimal digits of a number below 100. *)
Definition two_digits (n : Z) : string :=
  String (pretty_N_char (Z.to_N (n / 10)))
    (String (pretty_N_char (Z.to_N (n mod 10))) "").

(** The sum that the daily selector computes from a UTC date. *)
Definition quote_hash (day : Z) : Z :=
  let '(y, m, d) := civil_from_days day in y + m + d.

(** The last instant of the year 9999, plus one. *)
Definition end_of_year_9999 : Z := 253402300800000.

(** The calendar of [civil_from_days], piece by piece: the year of a day of
    the 400-year era (eras and their years begin on 1 March), the first day
    of a year of the era, the last one, and the month and the day of the
    month of a day of the year, with 1 for January and February, which
    belong to the next calendar year. *)
Definition year_of_era (doe : Z) : Z :=
  (doe - doe / 1460 + doe / 36524 - doe / 146096) / 365.

Definition year_start (yoe : Z) : Z := 365 * yoe + yoe / 4 - yoe / 100.

Definition year_end (yoe : Z) : Z :=
  if yoe =? 399 then 146096 else year_start (yoe + 1) - 1.

Definition month_day (doy : Z) : Z * Z * Z :=
  let mp := (5 * doy + 2) / 153 in
  let d := doy - (153 * mp + 2) / 5 + 1 in
  let m := if mp <? 10 then mp + 3 else mp - 9 in
  (if m <=? 2 then 1 else 0, m, d).

(** [check i] holds for every [i] from 0 up to, but not including, [n]. *)
Definition all_below (n : N) (check : Z -> bool) : bool :=
  fst (N.iter n (fun acc => (fst acc && check (snd acc), snd acc + 1)) (true, 0)).

(** A text without the character [sep]. *)
Fixpoint free_of (sep : ascii) (s : string) : bool :=
  match s with
  | EmptyString => true
  | String c rest => negb (Ascii.eqb c sep) && free_of sep rest
  end.

(** What the selector needs of a number printed on [width] digits: the
    width, no dash inside, and [parseInt] reads the number back. *)
Definition pads_well (width : nat) (n : Z) : bool :=
  let s := padStart0 width (pretty n) in
  (String.length s =? width)%nat && free_of "-" s
  && bool_decide (parseInt10 s = Some n).

(** The formula for the year is right at both ends of the year [yoe] of an
    era, and the year has 365 or 366 days. *)
Definition year_ok (yoe : Z) : bool :=
  (year_of_era (year_start yoe) =? yoe)
  && (year_of_era (year_end yoe) =? yoe)
  && (364 <=? year_end yoe - year_start yoe)
  && (year_end yoe - year_start yoe <=? 365).

(** Day [doy] of a year falls on a month from 1 to 12 and a day from 1 to
    31, January and February are the days from 306 on, and the sum of the
    three numbers moves on to another residue modulo 6 on the next day of
    the year. *)
Definition day_ok (doy : Z) : bool :=
  let '(c, m, d) := month_day doy in
  let '(c', m', d') := month_day (doy + 1) in
  (1 <=? m) && (m <=? 12) && (1 <=? d) && (d <=? 31)
  && Z.eqb c (if 306 <=? doy then 1 else 0)
  && ((doy =? 365) || negb ((c' + m' + d' - (c + m + d)) mod 6 =? 0)).

(** ** Sample visits *)

(** The slider to ten minutes, a start, one tick, a pause and a reset. *)
Definition short_visit : list ui_event :=
  [Slide 10; PressPlayPause; Interval 1000; PressPlayPause; PressReset].

(** Two full sessions of five minutes, with a press of the round button
    before each. *)
Definition two_sessions_visit : list ui_event :=
  Slide 5 :: PressPlayPause :: map Interval (seqZ 1000 300)
  ++ PressPlayPause :: map Interval (seqZ 2000 300).

(** The clocks of two sessions of five minutes. *)
Definition two_clocks : list (list Z) := [seqZ 1000 300; seqZ 2000 300].

(** A stored array with an entry whose [endedAt] is a string between two
    records, the older record first. *)
Definition mixed_entries : list jsval :=
  [session_entry 1000 300;
   JObj [("endedAt", JStr "soon"); ("duration", JNum 300)];
   session_entry 2000 300].

(** * Checks of the platform models on known values *)

Example iso_2024_05_07 :
  toISOString 1715043845123 = "2024-05-07T01:04:05.123Z".
Proof. vm_compute. reflexivity. Qed.

Example iso_epoch : toISOString 0 = "1970-01-01T00:00:00.000Z".
Proof. vm_compute. reflexivity. Qed.

Example iso_before_epoch : toISOString (-1) = "1969-12-31T23:59:59.999Z".
Proof. vm_compute. reflexivity. Qed.

Example iso_leap_day :
  toISOString 951782400000 = "2000-02-29T00:00:00.000Z".
Proof. vm_compute. reflexivity. Qed.

Example iso_max : toISOString 8640000000000000 = "+275760-09-13T00:00:00.000Z".
Proof. vm_compute. reflexivity. Qed.

Example iso_min : toISOString (-8640000000000000) = "-271821-04-20T00:00:00.000Z".
Proof. vm_compute. reflexivity. Qed.

Example quote_2024_05_07 :
  todaysQuote 1715043845123 =
  Some {| text := "Each moment is all we need, not more."; author := "Mother Teresa" |}.
Proof. vm_compute. reflexivity. Qed.

Example sample_stringify :
  JSON_stringify (JArr [JNull; JBool true; JNum (-12); JArr [JObj []]])
  = "[null,true,-12,[{}]]".
Proof. vm_compute. reflexivity. Qed.

Example sample_roundtrip :
  let v := JArr [JNull; JBool true; JNum (-12); JStr "a\b"; JObj [("k", JArr [])];
                 session_entry 1715043845123 300] in
  JSON_parse (JSON_stringify v) = Some v.
Proof. vm_compute. reflexivity. Qed.

Example sample_parse_ws :
  JSON_parse " [ 1 , { } , [ ] ] " = Some (JArr [JNum 1; JObj []; JArr []]).
Proof. vm_compute. reflexivity. Qed.

Example sample_parse_bad :
  JSON_parse "[1,]" = None /\ JSON_parse "01" = None
  /\ JSON_parse "nul" = None /\ JSON_parse "[1] x" = None
  /\ JSON_parse "1.5" = None.
Proof. vm_compute. auto. Qed.

Example sample_parse_repeated_member :
  JSON_parse (JSON_stringify (JObj [("a", JNum 1); ("b", JNull); ("a", JNum 2)]))
  = Some (JObj [("a", JNum 2); ("b", JNull)]).
Proof. vm_compute. reflexivity. Qed.

(** * Properties *)

(** ** Effects of the building blocks *)

(** Unfolds the monad operations. *)
Ltac run_monad :=
  cbv [bind ret throw try_catch get_window console_error count_chime
       localStorage_getItem localStorage_setItem].

Section Effects.
Context `{codec : JSON}.

Lemma persistHistory_run (h : list jsval) (w : World) :
  persistHistory h w = (Ok tt, persisted h w).
Proof.
  unfold persistHistory, persisted. run_monad.
  destruct (window w) as [win|] eqn:Hw; simpl; [rewrite Hw|]; reflexivity.
Qed.

Lemma chime_run (w : World) : chime w = (Ok tt, chimed w).
Proof.
  unfold chime, chimed, play_bell. run_monad. simpl.
  destruct (window w) as [win|]; simpl; [destruct (audio_ok win)|]; simpl;
    rewrite ?app_nil_r; reflexivity.
Qed.

Lemma persisted_twice (h : list jsval) (w : World) :
  persisted h (persisted h w) = persisted h w.
Proof.
  unfold persisted. destruct (window w) as [win|] eqn:Hw; simpl; [|by rewrite Hw].
  by rewrite insert_insert_eq.
Qed.

Lemma window_persisted_None h w : window w = None -> persisted h w = w.
Proof. unfold persisted. by intros ->. Qed.

Lemma chime_calls_persisted h w : chime_calls (persisted h w) = chime_calls w.
Proof. unfold persisted. by destruct (window w). Qed.

Lemma storage_of_chimed w : storage_of (chimed w) = storage_of w.
Proof. reflexivity. Qed.

Lemma storage_of_persisted h w :
  storage_of (persisted h w) =
  (fun m => <[STORAGE_KEY := JSON_stringify (JArr h)]> m) <$> storage_of w.
Proof.
  unfold storage_of, persisted.
  destruct (window w) as [win|] eqn:Hw; simpl; [|rewrite Hw]; reflexivity.
Qed.

(** A tick that completes the countdown. *)
Lemma tick_completes (now : Z) (s : Home) (w : World) :
  isRunning s = true -> remaining s <= 1 ->
  let next := take 20 (obj (buildSessionRecord now (totalDuration s)) :: history s) in
  tick now s w =
  (Ok (mkHome (totalDuration s) 0 false next),
   persisted next (chimed (persisted next w))).
Proof.
  intros Hrun Hrem next. unfold tick, record_completion, bind, ret.
  rewrite Hrun; simpl.
  destruct (Z.leb_spec (remaining s) 1) as [_|?]; [|lia].
  fold next. rewrite persistHistory_run, chime_run, persistHistory_run.
  reflexivity.
Qed.

(** A tick that only counts down. *)
Lemma tick_counts_down (now : Z) (s : Home) (w : World) :
  isRunning s = true -> 1 < remaining s ->
  tick now s w = (Ok (setRemaining (remaining s - 1) s), w).
Proof.
  intros Hrun Hrem. unfold tick, ret. rewrite Hrun; simpl.
  destruct (Z.leb_spec (remaining s) 1) as [?|_]; [lia|reflexivity].
Qed.

(** No interval is armed while the timer is not running. *)
Lemma tick_idle (now : Z) (s : Home) (w : World) :
  isRunning s = false -> tick now s w = (Ok s, w).
Proof. intros Hrun. unfold tick, ret. by rewrite Hrun. Qed.

Lemma ticks_app (c1 c2 : list Z) (s : Home) (w : World) :
  ticks (c1 ++ c2) s w =
  match ticks c1 s w with
  | (Ok s', w') => ticks c2 s' w'
  | (Throw e, w') => (Throw e, w')
  end.
Proof.
  revert s w. induction c1 as [|now c1 IH]; intros s w; simpl; [reflexivity|].
  unfold bind. destruct (tick now s w) as [[s'|e] w']; [apply IH|reflexivity].
Qed.

(** The countdown of a running timer, tick by tick: after [k] of the [n]
    ticks, [n - k] seconds remain and the timer runs exactly when [k < n]. *)
Lemma countdown (n : nat) (clock : list Z) (s : Home) (w : World) :
  isRunning s = true -> remaining s = Z.of_nat n -> (0 < n)%nat ->
  length clock = n ->
  forall k : nat, (k <= n)%nat ->
    exists sk wk,
      ticks (take k clock) s w = (Ok sk, wk)
      /\ remaining sk = Z.of_nat n - Z.of_nat k
      /\ isRunning sk = bool_decide (k < n)%nat
      /\ totalDuration sk = totalDuration s
      /\ (k < n -> history sk = history s /\ wk = w)%nat.
Proof.
  intros Hrun Hrem Hpos Hlen k. induction k as [|k IH]; intros Hk.
  - exists s, w. rewrite take_0. simpl. unfold ret.
    rewrite bool_decide_eq_true_2 by lia. repeat split; auto; lia.
  - destruct IH as (sk & wk & Hticks & Hrk & Hik & Htk & Hhk); [lia|].
    rewrite bool_decide_eq_true_2 in Hik by lia.
    destruct (lookup_lt_is_Some_2 clock k) as [now Hnow]; [lia|].
    rewrite (take_S_r _ _ _ Hnow), ticks_app, Hticks. simpl. unfold bind.
    destruct (decide (S k = n)) as [Heq|Hne].
    + rewrite (tick_completes now sk wk Hik) by lia. simpl. unfold ret.
      eexists _, _. split; [reflexivity|]. simpl.
      rewrite bool_decide_eq_false_2 by lia. repeat split; auto; lia.
    + rewrite (tick_counts_down now sk wk Hik) by lia. unfold ret.
      eexists _, _. split; [reflexivity|]. simpl.
      rewrite bool_decide_eq_true_2 by lia.
      destruct Hhk as [Hh Hw]; [lia|]. repeat split; auto; lia.
Qed.

End Effects.

(** ** The timer state machine *)

Section TimerProperties.
Context `{codec : JSON}.

(** C2.  For every stick length [d] of the slider, from a stopped state with
    [remaining = d*60], [start] followed by [d*60] ticks ends with
    [remaining = 0] and [isRunning = false]; after [k] of these ticks exactly
    [d*60 - k] seconds remain and the timer is still running as long as
    [k < d*60], so every tick but the last takes one second off and the last
    one lands on 0 and stops the timer. *)
Theorem start_then_ticks_reaches_zero
    (d : Z) (s : Home) (clock : list Z) (w : World) :
  d ∈ stick_minutes ->
  remaining s = d * 60 ->
  isRunning s = false ->
  length clock = Z.to_nat (d * 60) ->
  (exists s' w',
      ticks clock (handleStart s) w = (Ok s', w')
      /\ remaining s' = 0 /\ isRunning s' = false)
  /\ (forall k : nat, (k <= length clock)%nat ->
        exists sk wk,
          ticks (take k clock) (handleStart s) w = (Ok sk, wk)
          /\ remaining sk = d * 60 - Z.of_nat k
          /\ isRunning sk = bool_decide (k < length clock)%nat).
Proof.
  intros Hd Hrem _ Hlen.
  assert (0 < d) as Hpos.
  { unfold stick_minutes in Hd. set_unfold. lia. }
  assert (handleStart s = setIsRunning true s) as Hstart.
  { unfold handleStart. destruct (Z.leb_spec (remaining s) 0); [lia|reflexivity]. }
  assert (forall k : nat, (k <= length clock)%nat ->
            exists sk wk,
              ticks (take k clock) (handleStart s) w = (Ok sk, wk)
              /\ remaining sk = d * 60 - Z.of_nat k
              /\ isRunning sk = bool_decide (k < length clock)%nat) as Hall.
  { intros k Hk.
    assert (isRunning (handleStart s) = true) as Hrun by (by rewrite Hstart).
    assert (remaining (handleStart s) = Z.of_nat (length clock)) as Hn
      by (rewrite Hstart; simpl; lia).
    destruct (countdown (length clock) clock (handleStart s) w Hrun Hn) with (k := k)
      as (sk & wk & Hticks & Hrk & Hik & _); try lia.
    exists sk, wk. repeat split; auto. lia. }
  split; [|exact Hall].
  destruct (Hall (length clock)) as (s' & w' & Hticks & Hr & Hi); [lia|].
  rewrite firstn_all in Hticks. exists s', w'.
  rewrite bool_decide_eq_false_2 in Hi by lia. repeat split; auto. lia.
Qed.

(** C3.  A completing tick puts exactly one new entry in front of the
    history (which is then cut to 20 entries, so it grows by one entry up to
    that bound).  Read off the entry at the head of the new history: its
    [duration] is the configured session duration in seconds, its [endedAt]
    is the clock reading of the tick, [endedAt - startedAt] is the duration
    times 1000, [endedAt] is later than [startedAt], and its [id] is the
    decimal string of [endedAt]. *)
Theorem completion_appends_one_record (now : Z) (s : Home) (w : World) :
  isRunning s = true ->
  remaining s <= 1 ->
  0 < totalDuration s ->
  exists s' w' entry started ended,
    tick now s w = (Ok s', w')
    /\ history s' = take 20 (entry :: history s)
    /\ head (history s') = Some entry
    /\ tail (history s') = take 19 (history s)
    /\ length (history s') = Nat.min 20 (S (length (history s)))
    /\ entry = obj (buildSessionRecord now (totalDuration s))
    /\ num_prop "duration" entry = Some (totalDuration s)
    /\ num_prop "startedAt" entry = Some started
    /\ num_prop "endedAt" entry = Some ended
    /\ ended = now
    /\ ended - started = totalDuration s * 1000
    /\ started < ended
    /\ entry_id entry = Some (JStr (pretty ended)).
Proof.
  intros Hrun Hrem Hpos.
  exists (mkHome (totalDuration s) 0 false
            (take 20 (obj (buildSessionRecord now (totalDuration s)) :: history s))).
  eexists _, (obj (buildSessionRecord now (totalDuration s))),
    (now - totalDuration s * 1000), now.
  split; [apply (tick_completes now s w Hrun Hrem)|].
  cbn [history]. split; [reflexivity|]. split; [reflexivity|].
  split; [reflexivity|]. split; [rewrite length_take; simpl; lia|].
  split; [reflexivity|]. split; [reflexivity|]. split; [reflexivity|].
  split; [reflexivity|]. split; [reflexivity|]. split; [lia|].
  split; [lia|reflexivity].
Qed.

(** C6.  On the states of the data model ([remaining] not negative) [start]
    is the specification's [start], which reseeds exactly when
    [remaining = 0]; and when [remaining > 0], [pause] stops the timer
    without touching [remaining], and a [start] after it runs on from that
    same value. *)
Theorem pause_then_start_resumes (s : Home) :
  0 <= remaining s ->
  handleStart s = spec_start s
  /\ (remaining s = 0 -> remaining (handleStart s) = totalDuration s)
  /\ (0 < remaining s ->
      isRunning (handlePause s) = false
      /\ remaining (handlePause s) = remaining s
      /\ remaining (handleStart s) = remaining s
      /\ remaining (handleStart (handlePause s)) = remaining s
      /\ isRunning (handleStart (handlePause s)) = true).
Proof.
  intros Hdom. unfold handleStart, spec_start, handlePause.
  split; [|split].
  - destruct (Z.leb_spec (remaining s) 0), (Z.eqb_spec (remaining s) 0);
      try reflexivity; lia.
  - intros ->. reflexivity.
  - intros Hpos. simpl.
    destruct (Z.leb_spec (remaining s) 0); [lia|]. simpl. auto.
Qed.

(** C7.  For every value [v] and every state, running or not,
    [setDuration v] leaves [totalDuration = v], [remaining = v] and
    [isRunning = false]; the history is not touched, and the session that
    was in progress is halted: a tick no longer changes anything. *)
Theorem setDuration_resets_and_halts (v : Z) (s : Home) :
  totalDuration (handleDurationChange v s) = v
  /\ remaining (handleDurationChange v s) = v
  /\ isRunning (handleDurationChange v s) = false
  /\ history (handleDurationChange v s) = history s
  /\ (forall now w,
        tick now (handleDurationChange v s) w = (Ok (handleDurationChange v s), w)).
Proof. repeat split. Qed.

(** C8, as the program has it.  Every operation of the timer (with a
    duration that is not negative for [setDuration]) returns normally and
    keeps [0 <= remaining <= totalDuration].  A step in which [remaining]
    goes down is a tick of a running timer, which takes off exactly one
    second, or a change of the duration, which sets [remaining] to the new
    duration whether the timer runs or not; [reset] and a [start] from zero
    seed [remaining] with [totalDuration], and [setDuration v] seeds both
    with [v]. *)
Theorem timer_invariant_preserved (e : event) (s : Home) (w : World) :
  timer_inv s ->
  event_ok e ->
  exists s' w',
    step e s w = (Ok s', w')
    /\ timer_inv s'
    /\ (remaining s' < remaining s ->
        (exists now, e = Tick now /\ isRunning s = true
                     /\ remaining s' = remaining s - 1)
        \/ (exists v, e = SetDuration v /\ remaining s' = v
                      /\ totalDuration s' = v))
    /\ (e = Reset -> remaining s' = totalDuration s')
    /\ (e = Start -> remaining s = 0 -> remaining s' = totalDuration s')
    /\ (forall v, e = SetDuration v -> remaining s' = v /\ totalDuration s' = v).
Proof.
  unfold timer_inv. intros Hinv Hok.
  destruct e as [| | |v|now]; simpl in *.
  - eexists _, _. split; [reflexivity|]. unfold handleStart.
    destruct (Z.leb_spec (remaining s) 0); simpl;
      repeat split; try lia; try discriminate.
  - eexists _, _. split; [reflexivity|]. simpl.
    repeat split; try lia; try discriminate.
  - eexists _, _. split; [reflexivity|]. simpl.
    repeat split; try lia; try discriminate.
  - eexists _, _. split; [reflexivity|]. simpl.
    split; [lia|]. split; [intros _; right; exists v; auto|].
    split; [discriminate|]. split; [discriminate|].
    intros v' [= <-]. split; reflexivity.
  - destruct (isRunning s) eqn:Hrun.
    + destruct (Z_le_gt_dec (remaining s) 1) as [Hlast|Hmore].
      * eexists _, _. split; [apply (tick_completes now s w Hrun Hlast)|].
        simpl. repeat split; try lia; try discriminate.
        intros Hlt. left. exists now. repeat split; lia.
      * eexists _, _. split; [apply (tick_counts_down now s w Hrun); lia|].
        simpl. repeat split; try lia; try discriminate.
        intros _. left. exists now. repeat split; lia.
    + eexists _, _. split; [apply (tick_idle now s w Hrun)|].
      repeat split; try lia; try discriminate.
Qed.

(** C9.  A tick calls the chime exactly once when it completes the countdown
    and not at all otherwise, and the call never raises: whether the audio
    facility works or fails, the tick returns normally with the same timer
    state and history and leaves the same contents in the storage. *)
Theorem chime_failure_is_contained (now : Z) (s : Home) (w : World) :
  let completes := isRunning s && (remaining s <=? 1) in
  exists s' w_ok w_fail,
    tick now s (with_audio true w) = (Ok s', w_ok)
    /\ tick now s (with_audio false w) = (Ok s', w_fail)
    /\ storage_of w_ok = storage_of w_fail
    /\ chime_calls w_ok = (chime_calls w + (if completes then 1 else 0))%nat
    /\ chime_calls w_fail = (chime_calls w + (if completes then 1 else 0))%nat.
Proof.
  intros completes. subst completes.
  destruct (isRunning s) eqn:Hrun; simpl.
  - destruct (Z.leb_spec (remaining s) 1) as [Hlast|Hmore].
    + eexists _, _, _.
      split; [apply (tick_completes now s _ Hrun Hlast)|].
      split; [apply (tick_completes now s _ Hrun Hlast)|].
      rewrite !storage_of_persisted, !storage_of_chimed, !storage_of_persisted.
      rewrite !chime_calls_persisted. simpl. rewrite !chime_calls_persisted. simpl.
      repeat split; try lia.
      unfold storage_of, with_audio. simpl. by destruct (window w).
    + eexists _, _, _.
      split; [apply (tick_counts_down now s _ Hrun Hmore)|].
      split; [apply (tick_counts_down now s _ Hrun Hmore)|].
      simpl. repeat split; try lia.
      unfold storage_of, with_audio. simpl. by destruct (window w).
  - eexists _, _, _.
    split; [apply (tick_idle now s _ Hrun)|].
    split; [apply (tick_idle now s _ Hrun)|].
    simpl. repeat split; try lia.
    unfold storage_of, with_audio. simpl. by destruct (window w).
Qed.

End TimerProperties.

(** Instances at concrete inputs, over the reference codec. *)

Lemma start_then_ticks_reaches_zero_witness :
  let s := mkHome 300 300 false [] in
  let clock := replicate 300 1715043845123 in
  let w := fresh_browser in
  5 ∈ stick_minutes
  /\ remaining s = 5 * 60
  /\ isRunning s = false
  /\ length clock = Z.to_nat (5 * 60)
  /\ (exists s' w',
        ticks clock (handleStart s) w = (Ok s', w')
        /\ remaining s' = 0 /\ isRunning s' = false).
Proof.
  intros s clock w.
  assert (5 ∈ stick_minutes) as H1 by (unfold stick_minutes; set_solver).
  assert (remaining s = 5 * 60) as H2 by reflexivity.
  assert (isRunning s = false) as H3 by reflexivity.
  assert (length clock = Z.to_nat (5 * 60)) as H4 by (vm_compute; reflexivity).
  repeat split; auto.
  exact (proj1 (start_then_ticks_reaches_zero 5 s clock w H1 H2 H3 H4)).
Defined.

Lemma completion_appends_one_record_witness :
  let s := mkHome 300 1 true [session_entry 1000 600] in
  isRunning s = true /\ remaining s <= 1 /\ 0 < totalDuration s
  /\ exists s' w' entry,
       tick 1715043845123 s fresh_browser = (Ok s', w')
       /\ history s' = [entry; session_entry 1000 600]
       /\ num_prop "duration" entry = Some 300
       /\ num_prop "startedAt" entry = Some 1715043545123
       /\ num_prop "endedAt" entry = Some 1715043845123
       /\ entry_id entry = Some (JStr "1715043845123").
Proof.
  intros s.
  assert (isRunning s = true) as H1 by reflexivity.
  assert (remaining s <= 1) as H2 by (simpl; lia).
  assert (0 < totalDuration s) as H3 by (simpl; lia).
  split; [exact H1|]. split; [exact H2|]. split; [exact H3|].
  destruct (completion_appends_one_record 1715043845123 s fresh_browser H1 H2 H3)
    as (s' & w' & entry & started & ended
        & Ht & Hh & _ & _ & _ & _ & Hd & Hs & He & Hnow & Hdiff & _ & Hid).
  exists s', w', entry. split; [exact Ht|]. split; [exact Hh|].
  split; [exact Hd|]. subst ended.
  assert (started = 1715043545123) as -> by (simpl in Hdiff; lia).
  split; [exact Hs|]. split; [exact He|]. rewrite Hid. vm_compute. reflexivity.
Defined.

Lemma pause_then_start_resumes_witness :
  let s := mkHome 1500 600 true [] in
  0 <= remaining s
  /\ handleStart s = spec_start s
  /\ remaining (handleStart (handlePause s)) = 600.
Proof.
  intros s.
  assert (0 <= remaining s) as H by (simpl; lia).
  destruct (pause_then_start_resumes s H) as (H1 & _ & H3).
  split; [exact H|]. split; [exact H1|].
  apply H3. simpl. lia.
Defined.

Lemma timer_invariant_preserved_witness :
  let s := mkHome 300 1 true [] in
  let idle := mkHome 1500 1500 false [] in
  (timer_inv s /\ event_ok (Tick 1715043845123)
   /\ exists s' w',
        step (Tick 1715043845123) s fresh_browser = (Ok s', w') /\ timer_inv s')
  /\ (timer_inv idle /\ event_ok (SetDuration 300)
      /\ exists s' w',
           step (SetDuration 300) idle fresh_browser = (Ok s', w')
           /\ timer_inv s' /\ remaining s' = 300).
Proof.
  intros s idle. split.
  - assert (timer_inv s) as H1 by (unfold timer_inv; simpl; lia).
    assert (event_ok (Tick 1715043845123)) as H2 by exact I.
    split; [exact H1|]. split; [exact H2|].
    destruct (timer_invariant_preserved (Tick 1715043845123) s fresh_browser H1 H2)
      as (s' & w' & Hs & Hi & _).
    exists s', w'. split; [exact Hs|exact Hi].
  - assert (timer_inv idle) as H1 by (unfold timer_inv; simpl; lia).
    assert (event_ok (SetDuration 300)) as H2 by (simpl; lia).
    split; [exact H1|]. split; [exact H2|].
    destruct (timer_invariant_preserved (SetDuration 300) idle fresh_browser H1 H2)
      as (s' & w' & Hs & Hi & _ & _ & _ & Hv).
    exists s', w'. split; [exact Hs|]. split; [exact Hi|].
    exact (proj1 (Hv 300 eq_refl)).
Defined.

(** C8, as stated, fails in one part: [remaining] also goes down while the
    timer is not running.  On an idle timer with a stick of 25 minutes, the
    slider moved to 5 minutes takes [remaining] from 1500 to 300. *)
Lemma remaining_drops_while_idle_counterexample :
  let s := mkHome 1500 1500 false [] in
  timer_inv s
  /\ event_ok (SetDuration 300)
  /\ isRunning s = false
  /\ exists s',
       step (SetDuration 300) s fresh_browser = (Ok s', fresh_browser)
       /\ isRunning s' = false
       /\ remaining s' = 300
       /\ remaining s' < remaining s.
Proof.
  intros s.
  split; [unfold timer_inv; simpl; lia|]. split; [simpl; lia|].
  split; [reflexivity|].
  exists (handleDurationChange 300 s). split; [reflexivity|].
  split; [reflexivity|]. split; [reflexivity|]. simpl. lia.
Qed.



(** ** Validation and sorting of stored entries *)

Lemma typeof_number (v : option jsval) :
  String.eqb (typeof v) "number" = true <-> exists n, v = Some (JNum n).
Proof.
  split.
  - destruct v as [[]|]; simpl; try discriminate. eauto.
  - intros [n ->]. reflexivity.
Qed.

Lemma typeof_number_prop (k : string) (fields : list (string * jsval)) :
  String.eqb (typeof (assoc k fields)) "number"
  = bool_decide (is_Some (num_prop k (JObj fields))).
Proof.
  simpl. destruct (assoc k fields) as [[]|]; reflexivity.
Qed.

Lemma numeric_fields_object (x : jsval) :
  numeric_fields x = true -> exists fields, x = JObj fields.
Proof.
  unfold numeric_fields. destruct x; simpl; try discriminate. eauto.
Qed.

Lemma numeric_fields_endedAt (x : jsval) :
  numeric_fields x = true -> is_Some (num_prop "endedAt" x).
Proof.
  unfold numeric_fields. intros [H _]%andb_prop. by apply bool_decide_eq_true in H.
Qed.

(** The callback of the filter on an entry that is not [null]. *)
Lemma entry_is_valid_run (x : jsval) (w : World) :
  x <> JNull -> entry_is_valid x w = (Ok (numeric_fields x), w).
Proof.
  intros Hx. unfold entry_is_valid, numeric_fields, get_prop. run_monad.
  destruct x as [|b|n|str|items|fields]; try reflexivity; [congruence|].
  rewrite <- !typeof_number_prop.
  destruct (String.eqb (typeof (assoc "endedAt" fields)) "number"); reflexivity.
Qed.

(** The callback of the filter on [null]. *)
Lemma entry_is_valid_null (w : World) :
  entry_is_valid JNull w = (Throw TypeError, w).
Proof. reflexivity. Qed.

Lemma filterM_run (items : list jsval) (w : World) :
  JNull ∉ items ->
  filterM entry_is_valid items w = (Ok (List.filter numeric_fields items), w).
Proof.
  induction items as [|x items IH]; intros Hnull; [reflexivity|].
  apply not_elem_of_cons in Hnull as [Hx Hrest]. simpl. unfold bind at 1.
  rewrite entry_is_valid_run by congruence. unfold bind at 1.
  rewrite IH by assumption. unfold ret.
  destruct (numeric_fields x); reflexivity.
Qed.

Lemma filterM_null (items : list jsval) (w : World) :
  JNull ∈ items -> filterM entry_is_valid items w = (Throw TypeError, w).
Proof.
  induction items as [|x items IH]; intros Hnull; [by apply elem_of_nil in Hnull|].
  simpl. unfold bind at 1.
  assert (x = JNull \/ x <> JNull) as [->|Hx]
    by (destruct x; auto; right; discriminate); [reflexivity|].
  rewrite entry_is_valid_run by assumption. unfold bind at 1.
  apply elem_of_cons in Hnull as [Heq|Hin]; [congruence|].
  rewrite IH by assumption. reflexivity.
Qed.

Lemma filter_all (items : list jsval) :
  Forall (fun x => numeric_fields x = true) items ->
  List.filter numeric_fields items = items.
Proof.
  induction 1 as [|x items Hx _ IH]; [reflexivity|].
  simpl. rewrite Hx, IH. reflexivity.
Qed.

Lemma filter_length_le (items : list jsval) :
  (length (List.filter numeric_fields items) <= length items)%nat.
Proof.
  induction items as [|x items IH]; simpl; [lia|].
  destruct (numeric_fields x); simpl; lia.
Qed.

Lemma filter_numeric (items : list jsval) :
  Forall (fun x => numeric_fields x = true) (List.filter numeric_fields items).
Proof.
  induction items as [|x items IH]; simpl; [constructor|].
  destruct (numeric_fields x) eqn:Hx; [constructor|]; assumption.
Qed.

Lemma chain_cons (rel : jsval -> jsval -> bool) (a : jsval) (l : list jsval) :
  chain rel (a :: l) =
  match l with
  | [] => true
  | b :: _ => rel a b && chain rel l
  end.
Proof. destruct l; reflexivity. Qed.

Lemma chain_tail (rel : jsval -> jsval -> bool) (a : jsval) (l : list jsval) :
  chain rel (a :: l) = true -> chain rel l = true.
Proof.
  rewrite chain_cons. destruct l; [reflexivity|]. by intros [_ ?]%andb_prop.
Qed.

Lemma chain_take (rel : jsval -> jsval -> bool) (n : nat) (l : list jsval) :
  chain rel l = true -> chain rel (take n l) = true.
Proof.
  revert l. induction n as [|n IH]; intros l Hl; [by destruct l|].
  destruct l as [|a l]; [reflexivity|].
  change (take (S n) (a :: l)) with (a :: take n l).
  rewrite chain_cons. specialize (IH l (chain_tail _ _ _ Hl)).
  destruct l as [|b l]; [by destruct n|].
  destruct n as [|n]; [reflexivity|].
  change (take (S n) (b :: l)) with (b :: take n l) in *.
  simpl in Hl. apply andb_prop in Hl as [Hab _]. by rewrite Hab, IH.
Qed.

Lemma newer_not_older (a b : jsval) : newer a b = true -> not_older a b = true.
Proof.
  unfold newer, not_older.
  destruct (num_prop "endedAt" a), (num_prop "endedAt" b); try discriminate.
  intros H. apply Z.ltb_lt in H. apply Z.leb_le. lia.
Qed.

Lemma strictly_desc_ordered (h : list jsval) :
  strictly_desc h = true -> ordered_desc h = true.
Proof.
  unfold strictly_desc, ordered_desc.
  induction h as [|a h IH]; [reflexivity|].
  rewrite !chain_cons. destruct h as [|b h]; [reflexivity|].
  intros [Hab Hrest]%andb_prop. rewrite (newer_not_older _ _ Hab). by apply IH.
Qed.

Lemma by_endedAt_desc_le (a b : jsval) :
  is_Some (num_prop "endedAt" a) -> is_Some (num_prop "endedAt" b) ->
  (by_endedAt_desc a b <=? 0) = not_older a b.
Proof.
  intros [x Hx] [y Hy]. unfold by_endedAt_desc, not_older. rewrite Hx, Hy.
  apply eq_true_iff_eq. rewrite !Z.leb_le. lia.
Qed.

Lemma not_older_flip (a b : jsval) :
  is_Some (num_prop "endedAt" a) -> is_Some (num_prop "endedAt" b) ->
  not_older a b = false -> not_older b a = true.
Proof.
  intros [x Hx] [y Hy]. unfold not_older. rewrite Hx, Hy.
  intros H. apply Z.leb_gt in H. apply Z.leb_le. lia.
Qed.

Lemma sort_insert_head (x : jsval) (l : list jsval) :
  head (sort_insert by_endedAt_desc x l) = Some x
  \/ head (sort_insert by_endedAt_desc x l) = head l.
Proof. destruct l as [|y l]; simpl; [auto|]. destruct (_ <=? 0); auto. Qed.

Lemma sort_insert_ordered (x : jsval) (l : list jsval) :
  is_Some (num_prop "endedAt" x) ->
  Forall (fun y => is_Some (num_prop "endedAt" y)) l ->
  ordered_desc l = true ->
  ordered_desc (sort_insert by_endedAt_desc x l) = true.
Proof.
  intros Hx Hall. unfold ordered_desc.
  induction Hall as [|y l Hy Hall IH]; intros Hl; [reflexivity|].
  simpl sort_insert. rewrite by_endedAt_desc_le by assumption.
  destruct (not_older x y) eqn:Hxy.
  - rewrite chain_cons, Hxy. exact Hl.
  - specialize (IH (chain_tail _ _ _ Hl)). rewrite chain_cons.
    destruct (sort_insert by_endedAt_desc x l) as [|z rest] eqn:Hins;
      [reflexivity|].
    rewrite IH, andb_true_r.
    destruct (sort_insert_head x l) as [Hhd|Hhd]; rewrite Hins in Hhd; simpl in Hhd.
    + injection Hhd as ->. by apply not_older_flip.
    + destruct l as [|b l]; [discriminate|]. injection Hhd as ->.
      simpl in Hl. by apply andb_prop in Hl as [? _].
Qed.

Lemma sort_insert_Forall (P : jsval -> Prop) (x : jsval) (l : list jsval) :
  P x -> Forall P l -> Forall P (sort_insert by_endedAt_desc x l).
Proof.
  intros Hx. induction 1 as [|y l Hy Hall IH]; simpl; [by repeat constructor|].
  destruct (_ <=? 0); repeat constructor; assumption.
Qed.

Lemma sort_insert_length (x : jsval) (l : list jsval) :
  length (sort_insert by_endedAt_desc x l) = S (length l).
Proof.
  induction l as [|y l IH]; simpl; [reflexivity|].
  destruct (_ <=? 0); simpl; [reflexivity|]. by rewrite IH.
Qed.

Lemma sort_insert_perm (x : jsval) (l : list jsval) :
  sort_insert by_endedAt_desc x l ≡ₚ x :: l.
Proof.
  induction l as [|y l IH]; simpl; [reflexivity|].
  destruct (_ <=? 0); [reflexivity|]. rewrite IH. apply Permutation_swap.
Qed.

Lemma Array_sort_perm (l : list jsval) : Array_sort by_endedAt_desc l ≡ₚ l.
Proof.
  induction l as [|x l IH]; simpl; [reflexivity|].
  rewrite sort_insert_perm. by rewrite IH.
Qed.

Lemma Array_sort_length (l : list jsval) :
  length (Array_sort by_endedAt_desc l) = length l.
Proof. apply Permutation_length, Array_sort_perm. Qed.

(** The result of [sort] is ordered by [endedAt], newest first. *)
Lemma Array_sort_ordered (l : list jsval) :
  Forall (fun y => is_Some (num_prop "endedAt" y)) l ->
  ordered_desc (Array_sort by_endedAt_desc l) = true.
Proof.
  induction 1 as [|x l Hx Hall IH]; [reflexivity|].
  simpl. apply sort_insert_ordered; [assumption| |assumption].
  clear IH Hx. induction Hall as [|y l Hy Hall IH]; simpl; [constructor|].
  by apply sort_insert_Forall.
Qed.

(** [sort] leaves an ordered list as it is. *)
Lemma Array_sort_ordered_id (l : list jsval) :
  Forall (fun y => is_Some (num_prop "endedAt" y)) l ->
  ordered_desc l = true ->
  Array_sort by_endedAt_desc l = l.
Proof.
  unfold ordered_desc.
  induction 1 as [|x l Hx Hall IH]; intros Hl; [reflexivity|].
  simpl. rewrite (IH (chain_tail _ _ _ Hl)).
  destruct l as [|y l]; [reflexivity|].
  simpl. rewrite by_endedAt_desc_le; [|assumption|by inversion Hall].
  simpl in Hl. apply andb_prop in Hl as [-> _]. reflexivity.
Qed.

(** ** The history store *)

Section StoreProperties.
Context `{codec : JSON}.

Lemma null_elem_dec (items : list jsval) : JNull ∈ items \/ JNull ∉ items.
Proof.
  induction items as [|x items [IH|IH]]; [right; apply not_elem_of_nil|..].
  - left. by apply list_elem_of_further.
  - destruct x; try (right; apply not_elem_of_cons; split; [discriminate|assumption]).
    left. apply list_elem_of_here.
Qed.

Lemma loadHistory_no_window (w : World) :
  window w = None -> loadHistory w = (Ok [], w).
Proof. intros Hw. unfold loadHistory. run_monad. by rewrite Hw. Qed.

Lemma loadHistory_read_fault (w : World) (win : Window) :
  window w = Some win -> storage_read_fault win = true ->
  loadHistory w = (Ok [], logged "Failed to parse history" SecurityError w).
Proof.
  intros Hw Hf. unfold loadHistory. run_monad.
  rewrite Hw; simpl. rewrite Hw; simpl. by rewrite Hf.
Qed.

Lemma loadHistory_missing (w : World) (win : Window) :
  window w = Some win -> storage_read_fault win = false ->
  localStorage win !! STORAGE_KEY = None \/ localStorage win !! STORAGE_KEY = Some "" ->
  loadHistory w = (Ok [], w).
Proof.
  intros Hw Hf Hraw. unfold loadHistory. run_monad.
  rewrite Hw; simpl. rewrite Hw; simpl. rewrite Hf.
  by destruct Hraw as [-> | ->].
Qed.

Lemma loadHistory_parsed (w : World) (win : Window) (raw : string) :
  window w = Some win -> storage_read_fault win = false ->
  localStorage win !! STORAGE_KEY = Some raw -> raw <> "" ->
  loadHistory w =
  match JSON_parse raw with
  | None => (Ok [], logged "Failed to parse history" SyntaxError w)
  | Some parsed =>
      match Array_filter entry_is_valid parsed w with
      | (Ok kept, w') => (Ok (Array_sort by_endedAt_desc kept), w')
      | (Throw e, w') => (Ok [], logged "Failed to parse history" e w')
      end
  end.
Proof.
  intros Hw Hf Hraw Hne. unfold loadHistory, JSON_parse_or_throw. run_monad.
  rewrite Hw; simpl. rewrite Hw; simpl. rewrite Hf, Hraw. destruct raw as [|c raw]; [congruence|].
  destruct (JSON_parse (String c raw)) as [parsed|]; [|reflexivity].
  destruct (Array_filter entry_is_valid parsed w) as [[kept|e] w']; reflexivity.
Qed.

Lemma loadHistory_syntax_error (w : World) (win : Window) (raw : string) :
  window w = Some win -> storage_read_fault win = false ->
  localStorage win !! STORAGE_KEY = Some raw -> raw <> "" ->
  JSON_parse raw = None ->
  loadHistory w = (Ok [], logged "Failed to parse history" SyntaxError w).
Proof.
  intros Hw Hf Hraw Hne Hp. by rewrite (loadHistory_parsed w win raw), Hp.
Qed.

Lemma loadHistory_not_array (w : World) (win : Window) (raw : string) (v : jsval) :
  window w = Some win -> storage_read_fault win = false ->
  localStorage win !! STORAGE_KEY = Some raw -> raw <> "" ->
  JSON_parse raw = Some v -> (forall items, v <> JArr items) ->
  loadHistory w = (Ok [], logged "Failed to parse history" TypeError w).
Proof.
  intros Hw Hf Hraw Hne Hp Hv. rewrite (loadHistory_parsed w win raw), Hp by done.
  destruct v; try reflexivity. by destruct (Hv items).
Qed.

(** An array with a [null] entry makes the filter raise: nothing is kept. *)
Lemma loadHistory_null_entry (w : World) (win : Window) (raw : string)
    (items : list jsval) :
  window w = Some win -> storage_read_fault win = false ->
  localStorage win !! STORAGE_KEY = Some raw -> raw <> "" ->
  JSON_parse raw = Some (JArr items) -> JNull ∈ items ->
  loadHistory w = (Ok [], logged "Failed to parse history" TypeError w).
Proof.
  intros Hw Hf Hraw Hne Hp Hnull.
  rewrite (loadHistory_parsed w win raw), Hp by done.
  simpl. by rewrite filterM_null.
Qed.

(** An array without [null] entries: the valid entries, newest first. *)
Lemma loadHistory_array (w : World) (win : Window) (raw : string)
    (items : list jsval) :
  window w = Some win -> storage_read_fault win = false ->
  localStorage win !! STORAGE_KEY = Some raw -> raw <> "" ->
  JSON_parse raw = Some (JArr items) -> JNull ∉ items ->
  loadHistory w =
  (Ok (Array_sort by_endedAt_desc (List.filter numeric_fields items)), w).
Proof.
  intros Hw Hf Hraw Hne Hp Hnull.
  rewrite (loadHistory_parsed w win raw), Hp by done.
  simpl. by rewrite filterM_run.
Qed.

(** [loadHistory] always returns; what it returns is ordered, newest first,
    and no longer than the stored array; a failure returns the empty list. *)
Lemma loadHistory_returns (w : World) :
  exists h w',
    loadHistory w = (Ok h, w')
    /\ ordered_desc h = true
    /\ (length h <= length (stored_array w))%nat
    /\ window w' = window w /\ chime_calls w' = chime_calls w
    /\ (w' = w \/ h = [] /\ exists e, w' = logged "Failed to parse history" e w).
Proof.
  destruct (window w) as [win|] eqn:Hw.
  2: { exists [], w. rewrite loadHistory_no_window by done.
       repeat split; simpl; auto; lia. }
  destruct (storage_read_fault win) eqn:Hf.
  { eexists [], _. rewrite (loadHistory_read_fault w win) by done.
    repeat split; simpl; eauto; lia. }
  destruct (localStorage win !! STORAGE_KEY) as [raw|] eqn:Hraw.
  2: { exists [], w. rewrite (loadHistory_missing w win) by auto.
       repeat split; simpl; auto; lia. }
  destruct (string_dec raw "") as [->|Hne].
  { exists [], w. rewrite (loadHistory_missing w win) by auto.
    repeat split; simpl; auto; lia. }
  destruct (JSON_parse raw) as [v|] eqn:Hp.
  2: { eexists [], _. rewrite (loadHistory_syntax_error w win raw) by done.
       repeat split; simpl; eauto; lia. }
  assert ((exists items, v = JArr items) \/ (forall items, v <> JArr items))
    as [[items ->]|Hv] by (destruct v; eauto; right; discriminate).
  2: { eexists [], _. rewrite (loadHistory_not_array w win raw v) by done.
       repeat split; simpl; eauto; lia. }
  destruct (null_elem_dec items) as [Hnull|Hnull].
  { eexists [], _. rewrite (loadHistory_null_entry w win raw items) by done.
    repeat split; simpl; eauto; lia. }
  eexists _, w. rewrite (loadHistory_array w win raw items) by done.
  split; [reflexivity|]. split; [|split; [|auto]].
  - apply Array_sort_ordered.
    eapply Forall_impl; [apply filter_numeric|]. apply numeric_fields_endedAt.
  - rewrite Array_sort_length. unfold stored_array. rewrite Hw, Hraw, Hp.
    apply filter_length_le.
Qed.

(** The first render: the loaded history becomes the state and is written
    back. *)
Lemma mount_run (w : World) :
  exists h w1,
    loadHistory w = (Ok h, w1)
    /\ mount w
       = (Ok (mkHome DEFAULT_DURATION DEFAULT_DURATION false h),
          persisted h (persisted [] w1)).
Proof.
  destruct (loadHistory_returns w) as (h & w1 & Hload & _).
  exists h, w1. split; [exact Hload|].
  unfold mount, bind. rewrite Hload, !persistHistory_run. reflexivity.
Qed.

End StoreProperties.

Section StoreClaims.
Context `{codec : JSON}.

(** Loading right after persisting, for a history that the codec reads back
    as printed. *)
Lemma persist_then_load_run (h : list jsval) (w : World) (win : Window) :
  window w = Some win ->
  storage_read_fault win = false ->
  Forall (fun x => numeric_fields x = true) h ->
  ordered_desc h = true ->
  JSON_parse (JSON_stringify (JArr h)) = Some (JArr h) ->
  persistHistory h w = (Ok tt, persisted h w)
  /\ loadHistory (persisted h w) = (Ok h, persisted h w).
Proof.
  intros Hw Hf Hnum Hdesc Hround.
  split; [apply persistHistory_run|].
  set (raw := JSON_stringify (JArr h)) in *.
  assert (raw <> "") as Hne.
  { intros Heq. rewrite Heq, JSON_parse_empty in Hround. discriminate. }
  assert (JNull ∉ h) as Hnull.
  { intros Hin. rewrite Forall_forall in Hnum. specialize (Hnum _ Hin). discriminate. }
  rewrite (loadHistory_array (persisted h w)
             (mkWindow (<[STORAGE_KEY := raw]> (localStorage win)) false (audio_ok win))
             raw h); try done.
  - rewrite filter_all by assumption.
    rewrite Array_sort_ordered_id; [reflexivity| |assumption].
    eapply Forall_impl; [exact Hnum|]. apply numeric_fields_endedAt.
  - unfold persisted. rewrite Hw, Hf. reflexivity.
  - simpl. apply lookup_insert_eq.
Qed.

End StoreClaims.

(** C5.  A stored array that holds a [null] entry in front of a valid record:
    the text parses, validation entry by entry would keep the record, but
    [loadHistory] returns the empty list and logs a [TypeError]. *)
Theorem load_drops_everything_on_null_entry :
  let raw := JSON_stringify (JArr null_then_record) in
  JSON_parse raw = Some (JArr null_then_record)
  /\ List.filter numeric_fields null_then_record = [session_entry 1715043845123 300]
  /\ loadHistory (browser_with raw)
     = (Ok [], logged "Failed to parse history" TypeError (browser_with raw)).
Proof.
  intros raw.
  assert (JSON_parse raw = Some (JArr null_then_record)) as Hp
    by (vm_compute; reflexivity).
  split; [exact Hp|]. split; [vm_compute; reflexivity|].
  apply (loadHistory_null_entry (browser_with raw)
           (mkWindow {[ STORAGE_KEY := raw ]} false true) raw null_then_record).
  - reflexivity.
  - reflexivity.
  - apply lookup_singleton_eq.
  - vm_compute. discriminate.
  - exact Hp.
  - apply list_elem_of_here.
Qed.

(** ** The bound and the order of the history *)

Lemma take_app_take {A} (n : nat) (l m : list A) :
  take n (l ++ take n m) = take n (l ++ m).
Proof.
  rewrite !take_app, take_take. do 2 f_equal. lia.
Qed.

Lemma chain_snoc (rel : jsval -> jsval -> bool) (l : list jsval) (a : jsval) :
  chain rel (l ++ [a]) =
  chain rel l && match last l with Some b => rel b a | None => true end.
Proof.
  induction l as [|x l IH]; [reflexivity|].
  change ((x :: l) ++ [a]) with (x :: (l ++ [a])).
  rewrite !chain_cons, IH. destruct l as [|y l]; simpl.
  - by rewrite andb_true_r.
  - rewrite andb_assoc. do 2 f_equal.
Qed.

Lemma increasing_tail (t : Z) (ts : list Z) :
  increasing (t :: ts) = true -> increasing ts = true.
Proof. destruct ts; simpl; [done|]. by intros [_ ?]%andb_prop. Qed.

Lemma increasing_lt (t : Z) (ts : list Z) :
  increasing (t :: ts) = true -> Forall (fun u => t < u) ts.
Proof.
  revert t. induction ts as [|u ts IH]; intros t Hinc; [constructor|].
  simpl in Hinc. apply andb_prop in Hinc as [Htu Hrest].
  apply Z.ltb_lt in Htu. constructor; [assumption|].
  eapply Forall_impl; [apply (IH u Hrest)|]. simpl. lia.
Qed.

Lemma ordered_desc_records (d : Z) (ts : list Z) :
  increasing ts = true ->
  ordered_desc (map (fun t => session_entry t d) (reverse ts)) = true.
Proof.
  unfold ordered_desc. induction ts as [|t ts IH]; intros Hinc; [reflexivity|].
  rewrite reverse_cons, map_app. simpl map. rewrite chain_snoc.
  rewrite (IH (increasing_tail _ _ Hinc)). simpl.
  rewrite fmap_last, last_reverse.
  destruct ts as [|u ts]; [reflexivity|]. simpl.
  simpl in Hinc. apply andb_prop in Hinc as [Htu _].
  apply Z.ltb_lt in Htu. unfold not_older. simpl. apply Z.leb_le. lia.
Qed.

Lemma session_entry_inj (d t u : Z) :
  session_entry t d = session_entry u d -> t = u.
Proof. unfold session_entry, obj, buildSessionRecord. simpl. congruence. Qed.

Section HistoryBound.
Context `{codec : JSON}.

(** A whole session from a reset or a finished timer: as many ticks as the
    session has seconds; the last of them files the record. *)
Lemma session_run (clock : list Z) (s : Home) (w : World) :
  0 < totalDuration s ->
  remaining s = totalDuration s \/ remaining s = 0 ->
  length clock = Z.to_nat (totalDuration s) ->
  exists w',
    session clock s w =
    (Ok (mkHome (totalDuration s) 0 false
           (take 20 (session_entry (completion_time clock) (totalDuration s)
                     :: history s))), w').
Proof.
  intros Hpos Hrem Hlen. unfold session.
  set (n := length clock).
  assert (remaining (handleStart s) = Z.of_nat n /\ isRunning (handleStart s) = true
          /\ totalDuration (handleStart s) = totalDuration s
          /\ history (handleStart s) = history s) as (Hr & Hi & Ht & Hh).
  { unfold handleStart.
    destruct (Z.leb_spec (remaining s) 0); simpl; repeat split; lia. }
  destruct (countdown n clock (handleStart s) w Hi Hr) with (k := pred n)
    as (sk & wk & Hticks & Hrk & Hik & Htk & Hhk); try lia.
  destruct Hhk as [Hhk ->]; [lia|].
  rewrite bool_decide_eq_true_2 in Hik by lia.
  destruct (lookup_lt_is_Some_2 clock (pred n)) as [now Hnow]; [lia|].
  assert (clock = take (pred n) clock ++ [now]) as Hsplit.
  { rewrite <- (take_drop (pred n) clock) at 1. f_equal.
    rewrite (drop_S _ _ _ Hnow), drop_ge by lia. reflexivity. }
  assert (completion_time clock = now) as ->.
  { unfold completion_time. rewrite Hsplit, last_snoc. reflexivity. }
  rewrite Hsplit, ticks_app, Hticks. simpl. unfold bind.
  rewrite (tick_completes now sk w Hik) by lia. unfold ret.
  rewrite Htk, Hhk, Ht, Hh. eexists. reflexivity.
Qed.

(** Sessions in a row file their records one by one. *)
Lemma sessions_run (clocks : list (list Z)) (s : Home) (w : World) :
  0 < totalDuration s ->
  remaining s = totalDuration s \/ remaining s = 0 ->
  Forall (fun clock => length clock = Z.to_nat (totalDuration s)) clocks ->
  exists s' w',
    sessions clocks s w = (Ok s', w')
    /\ totalDuration s' = totalDuration s
    /\ history s' =
       fold_left (fun h t => take 20 (session_entry t (totalDuration s) :: h))
                 (map completion_time clocks) (history s).
Proof.
  intros Hpos Hrem Hall. revert s w Hpos Hrem Hall.
  induction clocks as [|clock clocks IH]; intros s w Hpos Hrem Hall.
  - exists s, w. simpl. unfold ret. repeat split.
  - apply Forall_cons in Hall as [Hlen Hall].
    destruct (session_run clock s w Hpos Hrem Hlen) as [w1 Hs].
    simpl. unfold bind. rewrite Hs.
    set (s1 := mkHome (totalDuration s) 0 false
                 (take 20 (session_entry (completion_time clock) (totalDuration s)
                           :: history s))) in *.
    destruct (IH s1 w1) as (s' & w' & Hrun & Ht & Hh);
      [exact Hpos|by right|exact Hall|].
    exists s', w'. split; [exact Hrun|]. split; [exact Ht|exact Hh].
Qed.

End HistoryBound.

(** Filing records one by one keeps the newest 20, newest first. *)
Lemma file_records (recs : list jsval) (h : list jsval) :
  recs <> [] ->
  fold_left (fun h r => take 20 (r :: h)) recs h = take 20 (reverse recs ++ h).
Proof.
  revert h. induction recs as [|r recs IH]; intros h Hne; [congruence|].
  destruct recs as [|r' recs]; [reflexivity|].
  change (fold_left (fun h r => take 20 (r :: h)) (r :: r' :: recs) h)
    with (fold_left (fun h r => take 20 (r :: h)) (r' :: recs) (take 20 (r :: h))).
  rewrite IH by discriminate.
  rewrite take_app_take, (reverse_cons (r' :: recs) r), <- app_assoc. reflexivity.
Qed.

Lemma fold_left_map {A B C} (f : C -> B -> C) (g : A -> B) (l : list A) (c : C) :
  fold_left f (map g l) c = fold_left (fun c a => f c (g a)) l c.
Proof. revert c. induction l as [|a l IH]; intros c; simpl; [reflexivity|apply IH]. Qed.

Section HistoryClaims.
Context `{codec : JSON}.

(** C4, as the program has it.  The first render loads a history that is
    ordered by [endedAt], newest first, and no longer than the stored array
    (so within the bound of 20 when the stored array is).  A completing tick
    puts the new record in front of the history and cuts the result to 20
    entries; the order is kept when it held before and the clock does not
    read earlier than the newest entry.  After 21 sessions in a row that
    complete at increasing times, the history is the records of the last 20,
    newest first: the record of the first session is gone.  Nothing else
    changes the history: [start], [pause], [reset], [setDuration] and every
    tick that does not complete a countdown return the history they were
    given, and write nothing. *)
Theorem history_invariant_amended :
  (forall w : World,
      exists s w',
        mount w = (Ok s, w')
        /\ ordered_desc (history s) = true
        /\ (length (history s) <= length (stored_array w))%nat
        /\ ((length (stored_array w) <= 20)%nat -> history_inv (history s)))
  /\ (forall (now : Z) (s : Home) (w : World),
        isRunning s = true -> remaining s <= 1 ->
        exists s' w',
          tick now s w = (Ok s', w')
          /\ history s' =
             take 20 (session_entry now (totalDuration s) :: history s)
          /\ (length (history s') <= 20)%nat
          /\ (ordered_desc (history s) = true ->
              not_before now (history s) = true ->
              history_inv (history s')))
  /\ (forall (clocks : list (list Z)) (s : Home) (w : World),
        0 < totalDuration s ->
        remaining s = totalDuration s \/ remaining s = 0 ->
        Forall (fun clock => length clock = Z.to_nat (totalDuration s)) clocks ->
        length clocks = 21%nat ->
        increasing (map completion_time clocks) = true ->
        exists s' w',
          sessions clocks s w = (Ok s', w')
          /\ history s' =
             map (fun t => session_entry t (totalDuration s))
                 (reverse (tail (map completion_time clocks)))
          /\ (session_entry (hd 0 (map completion_time clocks)) (totalDuration s)
              ∉ history s')
          /\ history_inv (history s'))
  /\ (forall (e : event) (s : Home) (w : World),
        (forall now, e = Tick now -> isRunning s = false \/ 1 < remaining s) ->
        exists s',
          step e s w = (Ok s', w) /\ history s' = history s).
Proof.
  split; [|split; [|split]].
  - intros w.
    destruct (mount_run w) as (h & w1 & Hload & Hmount).
    destruct (loadHistory_returns w) as (h' & w1' & Hload' & Hord & Hlen & _).
    rewrite Hload in Hload'. injection Hload' as <- <-.
    eexists _, _. split; [exact Hmount|].
    cbn [history]. repeat split; auto. lia.
  - intros now s w Hrun Hrem.
    eexists _, _. split; [apply (tick_completes now s w Hrun Hrem)|].
    cbn [history]. split; [reflexivity|].
    split; [rewrite length_take; lia|].
    intros Hord Hnow. split; [rewrite length_take; lia|].
    apply chain_take. fold (session_entry now (totalDuration s)).
    rewrite chain_cons. destruct (history s) as [|a h]; [reflexivity|].
    fold (ordered_desc (a :: h)). rewrite Hord, andb_true_r.
    unfold not_before in Hnow. unfold not_older. simpl.
    destruct (num_prop "endedAt" a); [|discriminate]. exact Hnow.
  - intros clocks s w Hpos Hrem Hall Hlen Hinc.
    destruct (sessions_run clocks s w Hpos Hrem Hall) as (s' & w' & Hrun & _ & Hh).
    exists s', w'. split; [exact Hrun|].
    set (d := totalDuration s) in *.
    set (times := map completion_time clocks) in *.
    assert (length times = 21%nat) as Htimes by (unfold times; by rewrite length_map).
    destruct times as [|t0 ts]; [discriminate|]. simpl in Htimes.
    assert (history s' = map (fun t => session_entry t d) (reverse ts)) as Heq.
    { rewrite Hh.
      rewrite <- (fold_left_map (fun h r => take 20 (r :: h))
                    (fun t => session_entry t d)).
      rewrite file_records by discriminate.
      simpl map. rewrite reverse_cons, <- app_assoc.
      rewrite take_app_length' by (rewrite length_reverse, length_map; lia).
      symmetry. apply fmap_reverse. }
    simpl tail. simpl hd. split; [exact Heq|]. rewrite Heq. split; [|split].
    + intros Hin. apply list_elem_of_fmap in Hin as (u & Hu & Hin).
      apply session_entry_inj in Hu. subst u.
      rewrite elem_of_reverse in Hin.
      pose proof (increasing_lt _ _ Hinc) as Hlt.
      rewrite Forall_forall in Hlt. specialize (Hlt _ Hin). lia.
    + rewrite length_map, length_reverse. lia.
    + apply ordered_desc_records. exact (increasing_tail _ _ Hinc).
  - intros e s w Hquiet.
    destruct e as [| | |v|now]; simpl.
    + eexists. split; [reflexivity|]. unfold handleStart.
      destruct (remaining s <=? 0); reflexivity.
    + eexists. split; [reflexivity|reflexivity].
    + eexists. split; [reflexivity|reflexivity].
    + eexists. split; [reflexivity|reflexivity].
    + destruct (isRunning s) eqn:Hrun.
      * destruct (Hquiet now eq_refl) as [Hidle|Hmore]; [discriminate|].
        eexists. split; [apply (tick_counts_down now s w Hrun Hmore)|reflexivity].
      * eexists. split; [apply (tick_idle now s w Hrun)|reflexivity].
Qed.

End HistoryClaims.

(** C4, as stated, fails twice.  A stored array of 21 valid records is
    loaded in full, and a completion whose clock reads earlier than the
    newest entry leaves the history out of order. *)
Lemma history_invariant_counterexample :
  (exists s w',
      mount (browser_with (JSON_stringify (JArr crowded_history))) = (Ok s, w')
      /\ history s = crowded_history
      /\ length (history s) = 21%nat
      /\ ~ history_inv (history s))
  /\ (exists s' w',
        tick 1000 (mkHome 300 1 true [session_entry 2000 300]) fresh_browser
        = (Ok s', w')
        /\ history s' = [session_entry 1000 300; session_entry 2000 300]
        /\ ~ history_inv (history s')).
Proof.
  split.
  - eexists (mkHome DEFAULT_DURATION DEFAULT_DURATION false crowded_history), _.
    split; [vm_compute; reflexivity|].
    split; [reflexivity|]. split; [reflexivity|].
    intros [Hlen _]. vm_compute in Hlen. lia.
  - eexists _, _. split; [apply tick_completes; [reflexivity|simpl; lia]|].
    split; [reflexivity|].
    intros [_ Hord]. vm_compute in Hord. discriminate.
Qed.

Lemma history_invariant_amended_witness :
  let stored := [session_entry 1000 300; session_entry 3000 300] in
  let w := browser_with (JSON_stringify (JArr stored)) in
  let s := mkHome 300 1 true [session_entry 1000 300] in
  let clocks := map (fun k => replicate 300 (Z.of_nat k * 1000000)) (seq 1 21) in
  let s0 := mkHome 300 300 false [] in
  let s1 := mkHome 300 120 true [session_entry 1000 300] in
  ((length (stored_array w) <= 20)%nat
   /\ exists s' w',
        mount w = (Ok s', w')
        /\ history s' = [session_entry 3000 300; session_entry 1000 300]
        /\ history_inv (history s'))
  /\ (isRunning s = true /\ remaining s <= 1
      /\ ordered_desc (history s) = true /\ not_before 2000 (history s) = true
      /\ exists s' w',
           tick 2000 s fresh_browser = (Ok s', w') /\ history_inv (history s'))
  /\ (0 < totalDuration s0
      /\ (remaining s0 = totalDuration s0 \/ remaining s0 = 0)
      /\ Forall (fun clock => length clock = Z.to_nat (totalDuration s0)) clocks
      /\ length clocks = 21%nat
      /\ increasing (map completion_time clocks) = true
      /\ exists s' w',
           sessions clocks s0 fresh_browser = (Ok s', w')
           /\ history_inv (history s'))
  /\ ((forall now, Tick 2000 = Tick now -> isRunning s1 = false \/ 1 < remaining s1)
      /\ exists s',
           step (Tick 2000) s1 fresh_browser = (Ok s', fresh_browser)
           /\ history s' = history s1).
Proof.
  intros stored w s clocks s0 s1.
  destruct (@history_invariant_amended reference_codec)
    as (Hmount & Htick & Hruns & Hquiet).
  split; [|split; [|split]].
  - assert (length (stored_array w) <= 20)%nat as H1 by (vm_compute; lia).
    split; [exact H1|].
    destruct (Hmount w) as (s' & w' & Hm & _ & _ & Hinv).
    exists s', w'. split; [exact Hm|]. split; [|exact (Hinv H1)].
    vm_compute in Hm. injection Hm as <- _. reflexivity.
  - assert (isRunning s = true) as H1 by reflexivity.
    assert (remaining s <= 1) as H2 by (simpl; lia).
    assert (ordered_desc (history s) = true) as H3 by reflexivity.
    assert (not_before 2000 (history s) = true) as H4 by reflexivity.
    repeat split; auto.
    destruct (Htick 2000 s fresh_browser H1 H2) as (s' & w' & Ht & _ & _ & Hinv).
    exists s', w'. split; [exact Ht|exact (Hinv H3 H4)].
  - assert (0 < totalDuration s0) as H1 by (simpl; lia).
    assert (remaining s0 = totalDuration s0 \/ remaining s0 = 0) as H2 by (left; reflexivity).
    assert (Forall (fun clock => length clock = Z.to_nat (totalDuration s0)) clocks) as H3
      by (repeat constructor).
    assert (length clocks = 21%nat) as H4 by reflexivity.
    assert (increasing (map completion_time clocks) = true) as H5
      by (vm_compute; reflexivity).
    repeat split; auto.
    destruct (Hruns clocks s0 fresh_browser H1 H2 H3 H4 H5) as (s' & w' & Hs & _ & _ & Hinv).
    exists s', w'. split; [exact Hs|exact Hinv].
  - assert (forall now, Tick 2000 = Tick now -> isRunning s1 = false \/ 1 < remaining s1)
      as H1 by (intros now _; right; simpl; lia).
    split; [exact H1|].
    exact (Hquiet (Tick 2000) s1 fresh_browser H1).
Defined.

(** ** The daily quote *)

Lemma string_length_app (a b : string) :
  String.length (a ++ b) = (String.length a + String.length b)%nat.
Proof. induction a as [|c a IH]; simpl; [reflexivity|]. by rewrite IH. Qed.

(** [slice(0, n)] of a text only looks at its first [n] characters. *)
Lemma substring_prefix (n : nat) (a b : string) :
  (n <= String.length a)%nat -> substring 0 n (a ++ b) = substring 0 n a.
Proof.
  revert a. induction n as [|n IH]; intros a Hn.
  - by destruct a, b.
  - destruct a as [|c a]; simpl in *; [lia|]. rewrite IH by lia. reflexivity.
Qed.

Lemma zeros_length (k : nat) : String.length (zeros k) = k.
Proof. induction k as [|k IH]; simpl; [reflexivity|]. by rewrite IH. Qed.

Lemma padStart0_length (n : nat) (s : string) :
  (n <= String.length (padStart0 n s))%nat.
Proof. unfold padStart0. rewrite string_length_app, zeros_length. lia. Qed.

Lemma iso_year_length (y : Z) : (4 <= String.length (iso_year y))%nat.
Proof.
  unfold iso_year. destruct (_ && _).
  - apply padStart0_length.
  - rewrite string_length_app.
    pose proof (padStart0_length 6 (pretty (Z.abs y))). lia.
Qed.

Lemma iso_date_length (day : Z) : (10 <= String.length (iso_date day))%nat.
Proof.
  unfold iso_date. destruct (civil_from_days day) as [[y m] d].
  rewrite !string_length_app. simpl String.length.
  pose proof (iso_year_length y).
  pose proof (padStart0_length 2 (pretty m)).
  pose proof (padStart0_length 2 (pretty d)). lia.
Qed.

(** The day index that the selector reads is the UTC date of its clock
    reading. *)
Lemma dayIndex_is_utc_date (t : Z) :
  substring 0 10 (toISOString t) = substring 0 10 (iso_date (Day t)).
Proof. unfold toISOString. apply substring_prefix, iso_date_length. Qed.

(** C1, as the program has it.  The selected quote is a function of the UTC
    calendar day of the clock reading: two readings on the same UTC day give
    the same entry, and when two readings give different entries a UTC
    midnight lies between them. *)
Theorem daily_quote_fixed_per_utc_day (t1 t2 : Z) :
  (Day t1 = Day t2 -> todaysQuote t1 = todaysQuote t2)
  /\ (t1 <= t2 -> todaysQuote t1 <> todaysQuote t2 ->
      exists k, t1 < k * msPerDay <= t2).
Proof.
  assert (Day t1 = Day t2 -> todaysQuote t1 = todaysQuote t2) as Hsame.
  { intros Hday. unfold todaysQuote. rewrite !dayIndex_is_utc_date, Hday. reflexivity. }
  split; [exact Hsame|].
  intros Hle Hne. exists (Day t2).
  assert (Day t1 <> Day t2) as Hday by (intros Heq; apply Hne, Hsame, Heq).
  unfold Day, msPerDay in *.
  pose proof (Z.div_le_mono t1 t2 86400000 ltac:(lia) Hle).
  pose proof (Z.mul_div_le t2 86400000 ltac:(lia)).
  pose proof (Z.mul_succ_div_gt t1 86400000 ltac:(lia)).
  nia.
Qed.

Lemma daily_quote_fixed_per_utc_day_witness :
  Day 1715040000000 = Day 1715043845123
  /\ todaysQuote 1715040000000 = todaysQuote 1715043845123.
Proof.
  assert (Day 1715040000000 = Day 1715043845123) as H by (vm_compute; reflexivity).
  split; [exact H|].
  exact (proj1 (daily_quote_fixed_per_utc_day 1715040000000 1715043845123) H).
Defined.

(** C1, as stated, fails.  In a zone nine hours ahead of UTC, 08:00 and 10:00
    of the local 7 May 2024 are one local calendar day, yet the selector
    reads the UTC dates 6 May and 7 May and returns two different quotes:
    the entry changes at 09:00 local time. *)
Lemma daily_quote_local_day_counterexample :
  let tza := 9 * 3600000 in
  let t1 := 1715036400000 in
  let t2 := 1715043600000 in
  toISOString (LocalTime tza t1) = "2024-05-07T08:00:00.000Z"
  /\ toISOString (LocalTime tza t2) = "2024-05-07T10:00:00.000Z"
  /\ Day (LocalTime tza t1) = Day (LocalTime tza t2)
  /\ toISOString t1 = "2024-05-06T23:00:00.000Z"
  /\ toISOString t2 = "2024-05-07T01:00:00.000Z"
  /\ todaysQuote t1 = QUOTES !! 1%nat
  /\ todaysQuote t2 = QUOTES !! 2%nat
  /\ todaysQuote t1 <> todaysQuote t2.
Proof.
  intros tza t1 t2.
  repeat split; try (vm_compute; reflexivity).
  vm_compute. discriminate.
Qed.

(** ** The reference codec reads back what it prints for session records *)

Module CodecFacts.
Import Codec.

Lemma digit_of_pretty_char (d : N) :
  (d < 10)%N -> digit_of (pretty_N_char d) = Some (Z.of_N d).
Proof.
  intros Hd.
  assert (d = 0 \/ d = 1 \/ d = 2 \/ d = 3 \/ d = 4 \/ d = 5 \/ d = 6 \/ d = 7
          \/ d = 8 \/ d = 9)%N as Hcases by lia.
  repeat (destruct Hcases as [-> | Hcases]; [reflexivity|]). by subst.
Qed.

Lemma pretty_N_go_app (x : N) (s t : string) :
  (pretty_N_go x s ++ t = pretty_N_go x (s ++ t))%string.
Proof.
  revert s. induction (N.lt_wf_0 x) as [x _ IH]; intros s.
  destruct (decide (x = 0)%N) as [->|Hx]; [by rewrite !pretty_N_go_0|].
  rewrite (pretty_N_go_step x s), (pretty_N_go_step x (s ++ t)) by lia.
  rewrite IH by (apply N.div_lt; lia). reflexivity.
Qed.

(** Reading the digits of a printed number adds them to what was read. *)
Lemma read_digits_pretty_go (x : N) (s : string) :
  (0 < x)%N ->
  exists p : Z,
    forall acc,
      read_digits acc (pretty_N_go x s)
      = read_digits (Some (default 0 acc * p + Z.of_N x)) s.
Proof.
  revert s. induction (N.lt_wf_0 x) as [x _ IH]; intros s Hx.
  rewrite pretty_N_go_step by assumption.
  pose proof (N.mod_lt x 10 ltac:(lia)) as Hmod.
  pose proof (N.div_mod x 10 ltac:(lia)) as Hdiv.
  destruct (decide (x `div` 10 = 0)%N) as [Hsmall|Hbig].
  - rewrite Hsmall, pretty_N_go_0. exists 10. intros acc. simpl.
    rewrite digit_of_pretty_char by assumption. do 2 f_equal. lia.
  - destruct (IH (x `div` 10)%N) with (s := String (pretty_N_char (x `mod` 10)) s)
      as [p Hp]; [apply N.div_lt; lia|lia|].
    exists (p * 10). intros acc. rewrite Hp. simpl.
    rewrite digit_of_pretty_char by assumption. do 2 f_equal. lia.
Qed.

(** A printed positive number does not begin with the digit 0. *)
Lemma pretty_go_first (x : N) (s : string) :
  (0 < x)%N ->
  exists c rest,
    pretty_N_go x s = String c rest /\ is_Some (digit_of c) /\ c <> "0"%char.
Proof.
  revert s. induction (N.lt_wf_0 x) as [x _ IH]; intros s Hx.
  rewrite pretty_N_go_step by assumption.
  destruct (decide (x `div` 10 = 0)%N) as [Hsmall|Hbig].
  - rewrite Hsmall, pretty_N_go_0. eexists _, _. split; [reflexivity|].
    pose proof (N.div_mod x 10 ltac:(lia)) as Hdiv.
    pose proof (N.mod_lt x 10 ltac:(lia)) as Hmod.
    split; [rewrite digit_of_pretty_char by assumption; eauto|].
    intros Heq. apply (pretty_N_char_inj _ 0%N) in Heq; lia.
  - apply IH; [apply N.div_lt; lia|]. by apply N.neq_0_lt_0.
Qed.

(** What may follow a number in a JSON text. *)
Definition ends_number (rest : string) : Prop :=
  match rest with
  | EmptyString => True
  | String c _ => digit_of c = None /\ starts_fraction rest = false
  end.

Lemma read_digits_stop (acc : option Z) (rest : string) :
  ends_number rest -> read_digits acc rest = (acc, rest).
Proof. destruct rest as [|c rest]; simpl; [done|]. by intros [-> _]. Qed.

Lemma starts_fraction_stop (rest : string) :
  ends_number rest -> starts_fraction rest = false.
Proof. destruct rest as [|c rest]; simpl; [done|]. by intros [_ ->]. Qed.

Lemma parse_unsigned_pretty (x : N) (rest : string) :
  ends_number rest ->
  parse_unsigned (pretty x ++ rest) = Some (Z.of_N x, rest).
Proof.
  intros Hrest. unfold pretty, pretty_N.
  destruct (decide (x = 0)%N) as [->|Hx].
  - destruct rest as [|c rest]; [reflexivity|].
    destruct Hrest as [Hc Hf].
    change (parse_unsigned (String "0" (String c rest)) = Some (0, String c rest)).
    unfold parse_unsigned, leading_zero.
    rewrite bool_decide_eq_false_2 by (rewrite Hc; by intros [? ?]).
    cbn [read_digits]. change (digit_of "0") with (Some 0).
    cbn [read_digits]. rewrite Hc, Hf. reflexivity.
  - rewrite pretty_N_go_app. change ("" ++ rest)%string with rest.
    destruct (pretty_go_first x rest) as (c & tl & Hfirst & _ & Hc); [lia|].
    destruct (read_digits_pretty_go x rest) as [p Hp]; [lia|].
    unfold parse_unsigned.
    assert (leading_zero (pretty_N_go x rest) = false) as ->.
    { rewrite Hfirst. unfold leading_zero.
      destruct c as [[] [] [] [] [] [] [] []]; try reflexivity. congruence. }
    rewrite Hp, read_digits_stop by assumption. simpl.
    rewrite starts_fraction_stop by assumption. reflexivity.
Qed.

Lemma parse_number_pretty (n : Z) (rest : string) :
  ends_number rest ->
  parse_number (pretty n ++ rest) = Some (n, rest).
Proof.
  intros Hrest. destruct n as [|p|p].
  - apply (parse_unsigned_pretty 0 rest Hrest).
  - change (pretty (Z.pos p)) with (pretty (N.pos p)).
    pose proof (parse_unsigned_pretty (N.pos p) rest Hrest) as Hu.
    destruct (pretty_go_first (N.pos p) rest) as (c & tl & Hfirst & _ & Hc); [lia|].
    unfold parse_number.
    assert (pretty (N.pos p) ++ rest = pretty_N_go (N.pos p) rest)%string as Heq.
    { unfold pretty, pretty_N.
      rewrite decide_False by discriminate. by rewrite pretty_N_go_app. }
    rewrite Heq in *. rewrite Hfirst in *.
    assert (c <> "-"%char) as Hminus.
    { intros ->. unfold parse_unsigned in Hu. simpl in Hu. discriminate. }
    destruct c as [[] [] [] [] [] [] [] []]; try exact Hu. congruence.
  - change (pretty (Z.neg p) ++ rest)%string
      with (String "-" (pretty (N.pos p) ++ rest)).
    unfold parse_number. cbv beta iota.
    rewrite (parse_unsigned_pretty (N.pos p) rest Hrest). reflexivity.
Qed.

Lemma string_app_assoc (a b c : string) :
  ((a ++ b) ++ c)%string = (a ++ (b ++ c))%string.
Proof.
  induction a as [|x a IH]; [reflexivity|].
  change (String x ((a ++ b) ++ c) = String x (a ++ (b ++ c))). by rewrite IH.
Qed.

(** One character of a string literal is read back from its escape. *)
Lemma parse_string_body_escape_char (c : ascii) (t : string) :
  parse_string_body (escape_char c ++ t)
  = match parse_string_body t with
    | Some (body, r) => Some (String c body, r)
    | None => None
    end.
Proof. destruct c as [[] [] [] [] [] [] [] []]; reflexivity. Qed.

Lemma parse_string_body_escape (s rest : string) :
  parse_string_body (escape s ++ String dquote rest) = Some (s, rest).
Proof.
  induction s as [|c s IH]; [reflexivity|].
  change (escape (String c s)) with (escape_char c ++ escape s)%string.
  rewrite string_app_assoc, parse_string_body_escape_char, IH. reflexivity.
Qed.

Lemma quote_app (s rest : string) :
  (quote s ++ rest)%string = String dquote (escape s ++ String dquote rest).
Proof.
  unfold quote.
  change (String dquote (escape s ++ String dquote "") ++ rest)%string
    with (String dquote ((escape s ++ String dquote "") ++ rest)).
  by rewrite string_app_assoc.
Qed.

Lemma parse_value_string (fuel : nat) (v rest : string) :
  parse_value (S fuel) (quote v ++ rest) = Some (JStr v, rest).
Proof.
  rewrite quote_app.
  change (parse_value (S fuel) (String dquote (escape v ++ String dquote rest)))
    with (match parse_string_body (escape v ++ String dquote rest) with
          | Some (str, rest') => Some (JStr str, rest')
          | None => None
          end).
  by rewrite parse_string_body_escape.
Qed.

(** A printed number begins with a digit or with the minus sign. *)
Lemma pretty_first (n : Z) (rest : string) :
  exists c tl,
    (pretty n ++ rest)%string = String c tl
    /\ (is_Some (digit_of c) \/ c = "-"%char).
Proof.
  destruct n as [|p|p].
  - exists "0"%char, rest. split; [reflexivity|]. left. by eexists.
  - destruct (pretty_go_first (N.pos p) rest) as (c & tl & Hfirst & Hc & _); [lia|].
    exists c, tl. split; [|by left].
    change (pretty (Z.pos p)) with (pretty_N_go (N.pos p) "").
    by rewrite pretty_N_go_app.
  - eexists "-"%char, _. split; [reflexivity|by right].
Qed.

Lemma parse_value_number_head (fuel : nat) (c : ascii) (tl : string) :
  is_Some (digit_of c) \/ c = "-"%char ->
  parse_value (S fuel) (String c tl)
  = match parse_number (String c tl) with
    | Some (n, rest') => Some (JNum n, rest')
    | None => None
    end.
Proof.
  intros Hc.
  destruct c as [[] [] [] [] [] [] [] []]; try reflexivity;
    exfalso; destruct Hc as [[d Hd]|Hc]; discriminate.
Qed.

Lemma parse_value_number (fuel : nat) (n : Z) (rest : string) :
  ends_number rest ->
  parse_value (S fuel) (pretty n ++ rest) = Some (JNum n, rest).
Proof.
  intros Hrest. destruct (pretty_first n rest) as (c & tl & Heq & Hc).
  pose proof (parse_number_pretty n rest Hrest) as Hnum.
  rewrite Heq in *. rewrite (parse_value_number_head fuel c tl Hc), Hnum.
  reflexivity.
Qed.

(** One member of an object, followed by more members or by the closing
    brace. *)
Lemma parse_members_more (fuel : nat) (k body more : string) (v : jsval) :
  parse_value fuel body = Some (v, String "," more) ->
  parse_members (S fuel) (quote k ++ ":" ++ body)
  = match parse_members fuel more with
    | Some (kvs, rest) => Some ((k, v) :: kvs, rest)
    | None => None
    end.
Proof.
  intros Hv. rewrite quote_app.
  change (parse_members (S fuel) (String dquote (escape k ++ String dquote (":" ++ body))))
    with (match parse_string_body (escape k ++ String dquote (":" ++ body)) with
          | Some (k, s2) =>
              match first_is ":" (skip_ws s2) with
              | Some s3 =>
                  match parse_value fuel s3 with
                  | Some (v, rest) =>
                      match skip_ws rest with
                      | String "," rest' =>
                          match parse_members fuel rest' with
                          | Some (kvs, rest'') => Some ((k, v) :: kvs, rest'')
                          | None => None
                          end
                      | String "}" rest' => Some ([(k, v)], rest')
                      | _ => None
                      end
                  | None => None
                  end
              | None => None
              end
          | None => None
          end).
  rewrite parse_string_body_escape. cbv beta iota.
  change (first_is ":" (skip_ws (":" ++ body))) with (Some body). cbv beta iota.
  rewrite Hv. reflexivity.
Qed.

Lemma parse_members_last (fuel : nat) (k body rest : string) (v : jsval) :
  parse_value fuel body = Some (v, String "}" rest) ->
  parse_members (S fuel) (quote k ++ ":" ++ body) = Some ([(k, v)], rest).
Proof.
  intros Hv. rewrite quote_app.
  change (parse_members (S fuel) (String dquote (escape k ++ String dquote (":" ++ body))))
    with (match parse_string_body (escape k ++ String dquote (":" ++ body)) with
          | Some (k, s2) =>
              match first_is ":" (skip_ws s2) with
              | Some s3 =>
                  match parse_value fuel s3 with
                  | Some (v, rest) =>
                      match skip_ws rest with
                      | String "," rest' =>
                          match parse_members fuel rest' with
                          | Some (kvs, rest'') => Some ((k, v) :: kvs, rest'')
                          | None => None
                          end
                      | String "}" rest' => Some ([(k, v)], rest')
                      | _ => None
                      end
                  | None => None
                  end
              | None => None
              end
          | None => None
          end).
  rewrite parse_string_body_escape. cbv beta iota.
  change (first_is ":" (skip_ws (":" ++ body))) with (Some body). cbv beta iota.
  rewrite Hv. reflexivity.
Qed.

Lemma parse_value_object_head (fuel : nat) (k tl : string) :
  parse_value (S fuel) (String "{" (quote k ++ tl))
  = match parse_members fuel (quote k ++ tl) with
    | Some (members, rest') => Some (JObj (members_to_object members), rest')
    | None => None
    end.
Proof. rewrite quote_app. reflexivity. Qed.

Lemma parse_elements_unfold (fuel : nat) (s : string) :
  parse_elements (S fuel) s
  = match parse_value fuel s with
    | Some (v, rest) =>
        match skip_ws rest with
        | String "," rest' =>
            match parse_elements fuel rest' with
            | Some (vs, rest'') => Some (v :: vs, rest'')
            | None => None
            end
        | String "]" rest' => Some ([v], rest')
        | _ => None
        end
    | None => None
    end.
Proof. reflexivity. Qed.

(** The text of a session record. *)
Lemma stringify_obj_app (r : SessionRecord) (rest : string) :
  (stringify (obj r) ++ rest)%string
  = String "{"
      (quote "id" ++ ":" ++
       (quote (id r) ++ String ","
       (quote "startedAt" ++ ":" ++
       (pretty (startedAt r) ++ String ","
       (quote "endedAt" ++ ":" ++
       (pretty (endedAt r) ++ String ","
       (quote "duration" ++ ":" ++
       (pretty (duration r) ++ String "}" rest)))))))).
Proof.
  cbv [stringify obj map String.concat].
  rewrite !string_app_assoc. reflexivity.
Qed.

Lemma ends_number_comma (s : string) : ends_number (String "," s).
Proof. split; reflexivity. Qed.

Lemma ends_number_brace (s : string) : ends_number (String "}" s).
Proof. split; reflexivity. Qed.

(** A session record is read back, whatever follows it. *)
Lemma parse_value_obj (fuel : nat) (r : SessionRecord) (rest : string) :
  parse_value (6 + fuel) (stringify (obj r) ++ rest) = Some (obj r, rest).
Proof.
  rewrite stringify_obj_app.
  change (6 + fuel)%nat with (S (S (S (S (S (S fuel)))))).
  rewrite parse_value_object_head.
  erewrite parse_members_more by apply parse_value_string.
  erewrite parse_members_more by apply parse_value_number, ends_number_comma.
  erewrite parse_members_more by apply parse_value_number, ends_number_comma.
  erewrite parse_members_last by apply parse_value_number, ends_number_brace.
  reflexivity.
Qed.

Lemma stringify_obj_length (r : SessionRecord) :
  (7 <= String.length (stringify (obj r)))%nat.
Proof.
  pose proof (f_equal String.length (stringify_obj_app r "")) as Heq.
  rewrite (string_length_app (stringify (obj r)) "") in Heq.
  set (n := String.length (stringify (obj r))) in *.
  simpl String.length in Heq. rewrite !string_length_app in Heq.
  simpl String.length in Heq. lia.
Qed.

Lemma concat_cons2 (sep x y : string) (l : list string) :
  String.concat sep (x :: y :: l) = (x ++ sep ++ String.concat sep (y :: l))%string.
Proof. reflexivity. Qed.

Lemma parse_elements_records (rs : list SessionRecord) (r : SessionRecord)
    (fuel : nat) (rest : string) :
  parse_elements (length rs + 7 + fuel)
    (String.concat "," (map stringify (map obj (r :: rs))) ++ String "]" rest)
  = Some (map obj (r :: rs), rest).
Proof.
  revert r. induction rs as [|r' rs IH]; intros r.
  - change (String.concat "," (map stringify (map obj [r]))) with (stringify (obj r)).
    change (length [] + 7 + fuel)%nat with (S (6 + fuel)).
    rewrite parse_elements_unfold, parse_value_obj. reflexivity.
  - change (map stringify (map obj (r :: r' :: rs)))
      with (stringify (obj r) :: stringify (obj r') :: map stringify (map obj rs)).
    rewrite concat_cons2, !string_app_assoc.
    change ("," ++ ?a)%string with (String "," a).
    change (length (r' :: rs) + 7 + fuel)%nat with (S (length rs + 7 + fuel)).
    rewrite parse_elements_unfold.
    replace (length rs + 7 + fuel)%nat with (6 + (length rs + 1 + fuel))%nat at 1 by lia.
    rewrite parse_value_obj. cbv beta iota.
    change (skip_ws (String "," ?a)) with (String "," a). cbv beta iota.
    change (stringify (obj r') :: map stringify (map obj rs))
      with (map stringify (map obj (r' :: rs))).
    rewrite IH. reflexivity.
Qed.

Lemma concat_records_length (rs : list SessionRecord) (r : SessionRecord) :
  (length rs + 7 <= String.length (String.concat "," (map stringify (map obj (r :: rs)))))%nat.
Proof.
  revert r. induction rs as [|r' rs IH]; intros r.
  - apply stringify_obj_length.
  - change (map stringify (map obj (r :: r' :: rs)))
      with (stringify (obj r) :: map stringify (map obj (r' :: rs))).
    change (stringify (obj r) :: map stringify (map obj (r' :: rs)))
      with (stringify (obj r) :: stringify (obj r') :: map stringify (map obj rs)).
    rewrite concat_cons2, !string_length_app.
    change (stringify (obj r') :: map stringify (map obj rs))
      with (map stringify (map obj (r' :: rs))).
    specialize (IH r'). pose proof (stringify_obj_length r). simpl length. lia.
Qed.

(** The reference codec reads back every list of session records that it
    prints. *)
Lemma parse_stringify_records (rs : list SessionRecord) :
  parse (stringify (JArr (map obj rs))) = Some (JArr (map obj rs)).
Proof.
  destruct rs as [|r rs]; [reflexivity|].
  unfold parse.
  set (body := String.concat "," (map stringify (map obj (r :: rs)))).
  assert (stringify (JArr (map obj (r :: rs))) = String "[" (body ++ String "]" "")) as ->
    by reflexivity.
  assert (exists tl, (body ++ String "]" "")%string = String "{" tl) as [tl Htl].
  { unfold body.
    change (map stringify (map obj (r :: rs)))
      with (stringify (obj r) :: map stringify (map obj rs)).
    destruct (map stringify (map obj rs)) as [|y l].
    - change (String.concat "," [stringify (obj r)]) with (stringify (obj r)).
      rewrite stringify_obj_app. eauto.
    - rewrite concat_cons2, string_app_assoc, stringify_obj_app. eauto. }
  assert (parse_elements (String.length (String "[" (body ++ String "]" "")))
            (body ++ String "]" "") = Some (map obj (r :: rs), "")) as Helems.
  { pose proof (concat_records_length rs r) as Hlen. fold body in Hlen.
    simpl String.length. rewrite string_length_app. simpl String.length.
    replace (S (String.length body + 1))
      with (length rs + 7 + (S (String.length body + 1) - (length rs + 7)))%nat
      by lia.
    apply parse_elements_records. }
  change (parse_value (S (String.length (String "[" (body ++ String "]" ""))))
            (String "[" (body ++ String "]" "")))
    with (match first_is "]" (skip_ws (body ++ String "]" "")) with
          | Some rest' => Some (JArr [], rest')
          | None =>
              match parse_elements (String.length (String "[" (body ++ String "]" "")))
                      (body ++ String "]" "") with
              | Some (items, rest') => Some (JArr items, rest')
              | None => None
              end
          end).
  rewrite Helems. rewrite Htl. reflexivity.
Qed.

End CodecFacts.

(** A list of session records, written and read by the reference codec. *)
Lemma reference_codec_reads_back (rs : list SessionRecord) :
  JSON_parse (JSON_stringify (JArr (map obj rs))) = Some (JArr (map obj rs)).
Proof. apply CodecFacts.parse_stringify_records. Qed.

Lemma numeric_fields_obj (r : SessionRecord) : numeric_fields (obj r) = true.
Proof. reflexivity. Qed.




(** * Further properties of the page *)

(** ** Event traces *)

Section PageProperties.
Context `{codec : JSON}.

Lemma window_persisted (h : list jsval) (w : World) :
  window (persisted h w)
  = (fun win =>
       mkWindow (<[STORAGE_KEY := JSON_stringify (JArr h)]> (localStorage win))
                (storage_read_fault win) (audio_ok win)) <$> window w.
Proof.
  unfold persisted. destruct (window w) as [win|] eqn:Hw; simpl; [|rewrite Hw];
    reflexivity.
Qed.

Lemma window_after_completion (h : list jsval) (w : World) :
  window (persisted h (chimed (persisted h w)))
  = (fun win =>
       mkWindow (<[STORAGE_KEY := JSON_stringify (JArr h)]> (localStorage win))
                (storage_read_fault win) (audio_ok win)) <$> window w.
Proof.
  rewrite window_persisted. change (window (chimed ?x)) with (window x).
  rewrite window_persisted. destruct (window w) as [win|]; simpl; [|reflexivity].
  by rewrite insert_insert_eq.
Qed.

Lemma ui_step_run (e : ui_event) (s : Home) (w : World) :
  ui_step e s w = (Ok (next_state e s), next_world e s w).
Proof.
  unfold next_world. destruct e as [| |minutes|now]; simpl; try reflexivity.
  destruct (isRunning s) eqn:Hrun; simpl.
  - destruct (Z.leb_spec (remaining s) 1) as [Hlast|Hmore].
    + rewrite (tick_completes now s w Hrun Hlast). reflexivity.
    + rewrite (tick_counts_down now s w Hrun Hmore). reflexivity.
  - rewrite (tick_idle now s w Hrun). reflexivity.
Qed.

Lemma next_state_inv (e : ui_event) (s : Home) :
  ui_event_ok e -> page_inv s -> page_inv (next_state e s).
Proof.
  unfold page_inv. intros Hok (Hdur & Hrem & Hrun).
  assert (0 < totalDuration s) as Hpos.
  { destruct Hdur as (m & Hm & ->). unfold stick_minutes in Hm. set_unfold. lia. }
  destruct e as [| |minutes|now]; simpl in *.
  - unfold onPlayPause, handlePause, handleStart.
    destruct (isRunning s); simpl.
    + repeat split; auto; try lia; try discriminate.
    + destruct (Z.leb_spec (remaining s) 0); simpl; repeat split; auto; lia.
  - repeat split; auto; try lia; try discriminate.
  - assert (0 < minutes) by (unfold stick_minutes in Hok; set_unfold; lia).
    repeat split; eauto; try lia; try discriminate.
  - destruct (isRunning s) eqn:Hr;
      [|repeat split; auto; try lia; congruence].
    specialize (Hrun eq_refl).
    destruct (Z.leb_spec (remaining s) 1); simpl; repeat split; auto; try lia;
      try discriminate.
Qed.

Lemma ui_run_run (events : list ui_event) (s : Home) (w : World) :
  exists s' w',
    ui_run events s w = (Ok s', w')
    /\ (Forall ui_event_ok events -> page_inv s -> page_inv s')
    /\ (synced (history s) w -> synced (history s') w')
    /\ same_elsewhere w w'
    /\ chime_calls w' = (chime_calls w + completions events s)%nat.
Proof.
  revert s w. induction events as [|e events IH]; intros s w.
  - exists s, w. simpl. unfold ret.
    split; [reflexivity|]. split; [auto|]. split; [auto|]. split; [|lia].
    unfold same_elsewhere. destruct (window w); auto.
  - simpl. unfold bind. rewrite ui_step_run.
    destruct (IH (next_state e s) (next_world e s w)) as (s' & w' & Hrun & Hinv & Hsync & Hsame & Hch).
    exists s', w'. split; [exact Hrun|]. split; [|split; [|split]].
    + intros Hall Hs. apply Forall_cons in Hall as [He Hall].
      apply Hinv; [exact Hall|]. by apply next_state_inv.
    + intros Hs. apply Hsync. unfold next_world.
      destruct (completes e s) eqn:Hc.
      * unfold synced. rewrite window_after_completion.
        destruct (window w) as [win|]; simpl; [apply lookup_insert_eq|exact I].
      * assert (history (next_state e s) = history s) as ->; [|exact Hs].
        destruct e as [| |minutes|now]; simpl in *;
          try (unfold onPlayPause, handlePause, handleStart;
               repeat (case_match; simpl); reflexivity).
        destruct (isRunning s); [|reflexivity]. simpl in Hc. rewrite Hc. reflexivity.
    + unfold same_elsewhere in *. unfold next_world in Hsame.
      destruct (completes e s).
      * rewrite window_after_completion in Hsame.
        destruct (window w) as [win|]; simpl in Hsame; [|exact Hsame].
        destruct (window w') as [win'|]; [|done].
        destruct Hsame as (Hk & Hf & Ha). repeat split; auto.
        intros k Hne. rewrite Hk by done. by rewrite lookup_insert_ne.
      * exact Hsame.
    + rewrite Hch. unfold next_world. destruct (completes e s); simpl.
      * rewrite !chime_calls_persisted. simpl. rewrite chime_calls_persisted. lia.
      * lia.
Qed.

Lemma ui_run_app (ev1 ev2 : list ui_event) (s : Home) (w : World) :
  ui_run (ev1 ++ ev2) s w =
  match ui_run ev1 s w with
  | (Ok s', w') => ui_run ev2 s' w'
  | (Throw e, w') => (Throw e, w')
  end.
Proof.
  revert s w. induction ev1 as [|e ev1 IH]; intros s w; simpl; [reflexivity|].
  unfold bind. rewrite ui_step_run. apply IH.
Qed.

Lemma ui_run_ticks (clock : list Z) (s : Home) (w : World) :
  ui_run (map Interval clock) s w = ticks clock s w.
Proof.
  revert s w. induction clock as [|now clock IH]; intros s w; simpl; [reflexivity|].
  unfold bind. destruct (tick now s w) as [[s'|e] w']; [apply IH|reflexivity].
Qed.

Lemma page_run (events : list ui_event) (w : World) :
  exists h w1 s' w',
    loadHistory w = (Ok h, w1)
    /\ page events w = (Ok s', w')
    /\ ui_run events (mkHome DEFAULT_DURATION DEFAULT_DURATION false h)
         (persisted h (persisted [] w1)) = (Ok s', w')
    /\ window w1 = window w.
Proof.
  destruct (mount_run w) as (h & w1 & Hload & Hmount).
  destruct (loadHistory_returns w) as (h' & w1' & Hload' & _ & _ & Hwin & _).
  rewrite Hload in Hload'. injection Hload' as <- <-.
  destruct (ui_run_run events (mkHome DEFAULT_DURATION DEFAULT_DURATION false h)
              (persisted h (persisted [] w1))) as (s' & w' & Hrun & _).
  exists h, w1, s', w'. repeat split; auto.
  unfold page, bind. rewrite Hmount. exact Hrun.
Qed.

Lemma page_inv_initial (h : list jsval) :
  page_inv (mkHome DEFAULT_DURATION DEFAULT_DURATION false h).
Proof.
  unfold page_inv, DEFAULT_DURATION. simpl. split; [|split; [lia|discriminate]].
  exists 25. split; [unfold stick_minutes; set_solver|reflexivity].
Qed.

(** X1.  The state of the page stays within bounds.  Whatever the storage
    holds at the first render, and whatever the user does with the buttons
    and the slider, a page that has got through its events is in a state
    where the duration is one of the slider's values in seconds,
    [0 <= remaining <= totalDuration], and a running timer has at least one
    second left.  (The storage of the model takes every write, so there the
    page always gets through; in a browser a refused write ends the page in
    [persistHistory], and the statement is about the runs that are not
    ended that way.) *)
Theorem page_keeps_invariant
    (events : list ui_event) (w : World) (s : Home) (w' : World) :
  Forall ui_event_ok events ->
  page events w = (Ok s, w') ->
  page_inv s.
Proof.
  intros Hok Hdone.
  destruct (page_run events w) as (h & w1 & s2 & w2 & _ & Hpage & Hrun & _).
  rewrite Hdone in Hpage. injection Hpage as <- <-.
  destruct (ui_run_run events (mkHome DEFAULT_DURATION DEFAULT_DURATION false h)
              (persisted h (persisted [] w1))) as (s3 & w3 & Hrun3 & Hinv & _).
  rewrite Hrun in Hrun3. injection Hrun3 as <- <-.
  apply Hinv; [exact Hok|apply page_inv_initial].
Qed.

(** X2.  In a browser, after the first render and after every later event
    the text stored under the key of the program is the print of the current
    history: what a reload would read is what the page shows. *)
Theorem page_storage_tracks_history
    (events : list ui_event) (w : World) (win : Window) :
  window w = Some win ->
  exists s w',
    page events w = (Ok s, w')
    /\ stored_text w' = Some (JSON_stringify (JArr (history s))).
Proof.
  intros Hw.
  destruct (page_run events w) as (h & w1 & s' & w' & _ & Hpage & Hrun & Hw1).
  destruct (ui_run_run events (mkHome DEFAULT_DURATION DEFAULT_DURATION false h)
              (persisted h (persisted [] w1)))
    as (s2 & w2 & Hrun2 & _ & Hsync & Hsame & _).
  rewrite Hrun in Hrun2. injection Hrun2 as <- <-.
  exists s', w'. split; [exact Hpage|].
  assert (synced h (persisted h (persisted [] w1))) as H0.
  { unfold synced. rewrite !window_persisted, Hw1, Hw. simpl. apply lookup_insert_eq. }
  specialize (Hsync H0). unfold synced in Hsync. unfold stored_text.
  unfold same_elsewhere in Hsame. rewrite !window_persisted, Hw1, Hw in Hsame.
  simpl in Hsame. destruct (window w') as [win'|]; [exact Hsync|done].
Qed.

(** X3.  The page writes nothing but its own key: from the first render
    through any sequence of events, every other key of the storage keeps its
    text (and a page without a window stays without one). *)
Theorem page_touches_only_its_key (events : list ui_event) (w : World) :
  exists s w', page events w = (Ok s, w') /\ same_elsewhere w w'.
Proof.
  destruct (page_run events w) as (h & w1 & s' & w' & _ & Hpage & Hrun & Hw1).
  destruct (ui_run_run events (mkHome DEFAULT_DURATION DEFAULT_DURATION false h)
              (persisted h (persisted [] w1)))
    as (s2 & w2 & Hrun2 & _ & _ & Hsame & _).
  rewrite Hrun in Hrun2. injection Hrun2 as <- <-.
  exists s', w'. split; [exact Hpage|].
  unfold same_elsewhere in *. rewrite !window_persisted, Hw1 in Hsame.
  destruct (window w) as [win|]; simpl in Hsame; [|exact Hsame].
  destruct (window w') as [win'|]; [|done].
  destruct Hsame as (Hk & Hf & Ha). repeat split; auto.
  intros k Hne. rewrite Hk by done. simpl. by rewrite !lookup_insert_ne.
Qed.

(** X4.  Over any sequence of events the chime is triggered once for each
    tick that completes a countdown, and by nothing else. *)
Theorem chime_once_per_completion (events : list ui_event) (s : Home) (w : World) :
  exists s' w',
    ui_run events s w = (Ok s', w')
    /\ chime_calls w' = (chime_calls w + completions events s)%nat.
Proof.
  destruct (ui_run_run events s w) as (s' & w' & Hrun & _ & _ & _ & Hch).
  eauto.
Qed.

(** X5.  An event that does not complete a countdown leaves the history, the
    storage and the console alone. *)
Theorem only_completion_touches_history (e : ui_event) (s : Home) (w : World) :
  completes e s = false ->
  exists s', ui_step e s w = (Ok s', w) /\ history s' = history s.
Proof.
  intros Hc. exists (next_state e s). rewrite ui_step_run. unfold next_world.
  rewrite Hc. split; [reflexivity|].
  destruct e as [| |minutes|now]; simpl in *;
    try (unfold onPlayPause, handlePause, handleStart;
         repeat (case_match; simpl); reflexivity).
  destruct (isRunning s); [|reflexivity]. simpl in Hc. rewrite Hc. reflexivity.
Qed.

(** X6.  While time remains, pressing the round button twice brings back the
    very same state: a pause followed by a resume (or a start followed by a
    pause) is invisible, wherever it happens in a sequence of events. *)
Theorem pause_resume_is_invisible
    (before after : list ui_event) (s s1 : Home) (w w1 : World) :
  ui_run before s w = (Ok s1, w1) ->
  0 < remaining s1 ->
  onPlayPause (onPlayPause s1) = s1
  /\ ui_run (before ++ PressPlayPause :: PressPlayPause :: after) s w
     = ui_run (before ++ after) s w.
Proof.
  intros Hrun Hpos.
  assert (onPlayPause (onPlayPause s1) = s1) as Htwice.
  { unfold onPlayPause, handlePause, handleStart.
    destruct s1 as [t r [] h]; simpl in *.
    - destruct (Z.leb_spec r 0); [lia|reflexivity].
    - destruct (Z.leb_spec r 0); [lia|reflexivity]. }
  split; [exact Htwice|].
  rewrite !ui_run_app, Hrun. simpl. unfold bind, ret. by rewrite Htwice.
Qed.

End PageProperties.

(** ** Sessions *)

Section SessionProperties.
Context `{codec : JSON}.

Lemma session_run_world (clock : list Z) (s : Home) (w : World) :
  0 < totalDuration s ->
  remaining s = totalDuration s \/ remaining s = 0 ->
  length clock = Z.to_nat (totalDuration s) ->
  let next := take 20 (session_entry (completion_time clock) (totalDuration s)
                       :: history s) in
  session clock s w =
  (Ok (mkHome (totalDuration s) 0 false next),
   persisted next (chimed (persisted next w))).
Proof.
  intros Hpos Hrem Hlen next. unfold session.
  set (n := length clock).
  assert (remaining (handleStart s) = Z.of_nat n /\ isRunning (handleStart s) = true
          /\ totalDuration (handleStart s) = totalDuration s
          /\ history (handleStart s) = history s) as (Hr & Hi & Ht & Hh).
  { unfold handleStart.
    destruct (Z.leb_spec (remaining s) 0); simpl; repeat split; lia. }
  destruct (countdown n clock (handleStart s) w Hi Hr) with (k := pred n)
    as (sk & wk & Hticks & Hrk & Hik & Htk & Hhk); try lia.
  destruct Hhk as [Hhk ->]; [lia|].
  rewrite bool_decide_eq_true_2 in Hik by lia.
  destruct (lookup_lt_is_Some_2 clock (pred n)) as [now Hnow]; [lia|].
  assert (clock = take (pred n) clock ++ [now]) as Hsplit.
  { rewrite <- (take_drop (pred n) clock) at 1. f_equal.
    rewrite (drop_S _ _ _ Hnow), drop_ge by lia. reflexivity. }
  assert (completion_time clock = now) as Hnow'.
  { unfold completion_time. rewrite Hsplit, last_snoc. reflexivity. }
  subst next. rewrite Hnow'.
  rewrite Hsplit, ticks_app, Hticks. simpl. unfold bind.
  rewrite (tick_completes now sk w Hik) by lia. unfold ret.
  rewrite Htk, Hhk, Ht, Hh. reflexivity.
Qed.

Lemma sessions_run_world (clocks : list (list Z)) (s : Home) (w : World) :
  0 < totalDuration s ->
  remaining s = totalDuration s \/ remaining s = 0 ->
  Forall (fun clock => length clock = Z.to_nat (totalDuration s)) clocks ->
  clocks <> [] ->
  exists s' w',
    sessions clocks s w = (Ok s', w')
    /\ totalDuration s' = totalDuration s
    /\ remaining s' = 0 /\ isRunning s' = false
    /\ history s' =
       fold_left (fun h t => take 20 (session_entry t (totalDuration s) :: h))
                 (map completion_time clocks) (history s)
    /\ chime_calls w' = (chime_calls w + length clocks)%nat.
Proof.
  intros Hpos Hrem Hall Hne. revert s w Hpos Hrem Hall.
  induction clocks as [|clock clocks IH]; intros s w Hpos Hrem Hall; [congruence|].
  apply Forall_cons in Hall as [Hlen Hall].
  pose proof (session_run_world clock s w Hpos Hrem Hlen) as Hs.
  cbv zeta in Hs. simpl sessions. unfold bind. rewrite Hs.
  set (next := take 20 (session_entry (completion_time clock) (totalDuration s)
                        :: history s)) in *.
  set (s1 := mkHome (totalDuration s) 0 false next).
  set (w1 := persisted next (chimed (persisted next w))).
  assert (chime_calls w1 = S (chime_calls w)) as Hch.
  { unfold w1. rewrite chime_calls_persisted. simpl. by rewrite chime_calls_persisted. }
  destruct clocks as [|clock' clocks].
  - exists s1, w1. simpl. unfold ret. repeat split; auto. rewrite Hch. simpl. lia.
  - destruct (IH ltac:(discriminate) s1 w1) as (s' & w' & Hrun & Ht & Hr & Hi & Hh & Hc);
      [exact Hpos|by right|exact Hall|].
    exists s', w'. repeat split; auto. rewrite Hc, Hch. simpl. lia.
Qed.

(** X7.  Sessions in a row, any number of them: each one that runs its full
    length files one record and rings the chime once; afterwards the history
    is the new records, newest first, in front of the old history, cut to 20
    entries, and the timer has stopped at zero. *)
Theorem sessions_file_newest_first
    (clocks : list (list Z)) (s : Home) (w : World) :
  0 < totalDuration s ->
  remaining s = totalDuration s \/ remaining s = 0 ->
  Forall (fun clock => length clock = Z.to_nat (totalDuration s)) clocks ->
  clocks <> [] ->
  exists s' w',
    sessions clocks s w = (Ok s', w')
    /\ history s' =
       take 20 (map (fun t => session_entry t (totalDuration s))
                    (reverse (map completion_time clocks)) ++ history s)
    /\ remaining s' = 0 /\ isRunning s' = false
    /\ totalDuration s' = totalDuration s
    /\ chime_calls w' = (chime_calls w + length clocks)%nat.
Proof.
  intros Hpos Hrem Hall Hne.
  destruct (sessions_run_world clocks s w Hpos Hrem Hall Hne)
    as (s' & w' & Hrun & Ht & Hr & Hi & Hh & Hc).
  exists s', w'. repeat split; auto.
  rewrite Hh.
  rewrite <- (fold_left_map (fun h r => take 20 (r :: h))
                (fun t => session_entry t (totalDuration s))).
  rewrite file_records by (destruct clocks; [congruence|discriminate]).
  by rewrite fmap_reverse.
Qed.

Lemma increasing_NoDup (ts : list Z) : increasing ts = true -> NoDup ts.
Proof.
  induction ts as [|t ts IH]; intros Hinc; [constructor|].
  constructor; [|exact (IH (increasing_tail _ _ Hinc))].
  intros Hin. pose proof (increasing_lt _ _ Hinc) as Hlt.
  rewrite Forall_forall in Hlt. specialize (Hlt _ Hin). lia.
Qed.

Lemma entry_id_session_entry (t d : Z) :
  entry_id (session_entry t d) = Some (JStr (pretty t)).
Proof. reflexivity. Qed.

(** X8.  From an empty history, sessions that complete at increasing clock
    readings give entries with pairwise distinct [id]s (the [id] is the
    decimal string of the completion time, and different times print
    differently). *)
Theorem session_ids_distinct (clocks : list (list Z)) (s : Home) (w : World) :
  0 < totalDuration s ->
  remaining s = totalDuration s \/ remaining s = 0 ->
  Forall (fun clock => length clock = Z.to_nat (totalDuration s)) clocks ->
  history s = [] ->
  increasing (map completion_time clocks) = true ->
  exists s' w',
    sessions clocks s w = (Ok s', w')
    /\ NoDup (map entry_id (history s')).
Proof.
  intros Hpos Hrem Hall Hempty Hinc.
  destruct clocks as [|clock clocks].
  { exists s, w. split; [reflexivity|]. rewrite Hempty. constructor. }
  destruct (sessions_run_world (clock :: clocks) s w Hpos Hrem Hall ltac:(discriminate))
    as (s' & w' & Hrun & _ & _ & _ & Hh & _).
  exists s', w'. split; [exact Hrun|].
  rewrite Hh, Hempty.
  rewrite <- (fold_left_map (fun h r => take 20 (r :: h))
                (fun t => session_entry t (totalDuration s))).
  rewrite file_records by discriminate.
  rewrite app_nil_r.
  set (times := map completion_time (clock :: clocks)) in *.
  eapply sublist_NoDup; [|apply fmap_sublist, sublist_take].
  rewrite <- fmap_reverse, <- list_fmap_compose.
  apply NoDup_fmap_2_strong;
    [|apply (NoDup_Permutation_proper _ _ (reverse_Permutation times)),
        increasing_NoDup, Hinc].
  intros t u _ _ Heq. simpl in Heq. injection Heq as Heq.
  by apply (inj pretty) in Heq.
Qed.

(** X9.  A session that is given up before it completes leaves no trace: a
    press of the round button on a stopped timer (which starts a fresh
    countdown from the full stick when the last one has reached zero),
    fewer ticks than the started countdown has seconds, then the reset
    button or the slider; the history is what it was, nothing is written or
    logged, and the timer is stopped with a full stick. *)
Theorem abandoned_session_leaves_no_record
    (clock : list Z) (abandon : ui_event) (s : Home) (w : World) :
  isRunning s = false ->
  (length clock < Z.to_nat (remaining (handleStart s)))%nat ->
  abandon = PressReset \/ (exists minutes, abandon = Slide minutes) ->
  exists s',
    ui_run (PressPlayPause :: map Interval clock ++ [abandon]) s w = (Ok s', w)
    /\ history s' = history s
    /\ isRunning s' = false
    /\ remaining s' = totalDuration s'.
Proof.
  intros Hidle Hlen Habandon.
  assert (onPlayPause s = handleStart s) as Hplay
    by (unfold onPlayPause; rewrite Hidle; reflexivity).
  set (s0 := handleStart s) in *.
  assert (isRunning s0 = true /\ history s0 = history s) as [Hrun0 Hh0].
  { unfold s0, handleStart. destruct (remaining s <=? 0); split; reflexivity. }
  set (n := Z.to_nat (remaining s0)) in *.
  set (padded := clock ++ replicate (n - length clock) 0).
  assert (length padded = n) as Hpad
    by (unfold padded; rewrite length_app, length_replicate; lia).
  assert (remaining s0 = Z.of_nat n) as Hn by lia.
  destruct (countdown n padded s0 w Hrun0 Hn ltac:(lia) Hpad
              (length clock) ltac:(lia))
    as (sk & wk & Hticks & Hrk & Hik & Htk & Hhk).
  destruct Hhk as [Hhk ->]; [lia|].
  assert (take (length clock) padded = clock) as Htake
    by (unfold padded; apply take_app_length).
  rewrite Htake in Hticks.
  change (PressPlayPause :: map Interval clock ++ [abandon])
    with ([PressPlayPause] ++ map Interval clock ++ [abandon]).
  rewrite (ui_run_app [PressPlayPause]).
  change (ui_run [PressPlayPause] s w) with (Ok (onPlayPause s), w).
  cbv beta iota. rewrite ui_run_app, ui_run_ticks, Hplay, Hticks. cbv beta iota.
  rewrite <- Hh0, <- Hhk.
  destruct Habandon as [->|[minutes ->]]; eexists;
    (split; [reflexivity|]); simpl; repeat split; auto.
Qed.

End SessionProperties.

(** ** What the page displays *)

Lemma padStart0_two_digits (n : Z) :
  0 <= n < 100 -> padStart0 2 (pretty n) = two_digits n.
Proof.
  intros Hn.
  assert (forallb (fun k => String.eqb (padStart0 2 (pretty k)) (two_digits k))
            (seqZ 0 100) = true) as Hall by (vm_compute; reflexivity).
  rewrite forallb_forall in Hall. apply String.eqb_eq, Hall.
  apply list_elem_of_In, elem_of_seqZ. lia.
Qed.

Lemma two_digits_inj (a b : Z) :
  0 <= a < 100 -> 0 <= b < 100 -> two_digits a = two_digits b -> a = b.
Proof.
  intros Ha Hb Heq. unfold two_digits in Heq. injection Heq as H1 H0.
  apply (f_equal N_of_ascii) in H1, H0.
  assert (forall q, 0 <= q < 10 ->
            N_of_ascii (pretty_N_char (Z.to_N q)) = (48 + Z.to_N q)%N) as Hchar.
  { intros q Hq.
    assert (q = 0 \/ q = 1 \/ q = 2 \/ q = 3 \/ q = 4 \/ q = 5 \/ q = 6 \/ q = 7
            \/ q = 8 \/ q = 9) as Hcases by lia.
    repeat (destruct Hcases as [-> | Hcases]; [reflexivity|]). by subst. }
  pose proof (Z.div_mod a 10 ltac:(lia)). pose proof (Z.div_mod b 10 ltac:(lia)).
  pose proof (Z.mod_pos_bound a 10 ltac:(lia)).
  pose proof (Z.mod_pos_bound b 10 ltac:(lia)).
  assert (0 <= a / 10 < 10) by (split; [apply Z.div_pos|apply Z.div_lt_upper_bound]; lia).
  assert (0 <= b / 10 < 10) by (split; [apply Z.div_pos|apply Z.div_lt_upper_bound]; lia).
  rewrite !Hchar in H1, H0 by lia. lia.
Qed.

(** X10.  For every time below 100 minutes (the page never has more than 60)
    [formatTime] prints exactly [MM:SS], two digits of minutes and two digits
    of seconds below 60, and two different times never print the same. *)
Theorem formatTime_mm_ss (a b : Z) :
  0 <= a < 6000 ->
  0 <= b < 6000 ->
  formatTime a = (two_digits (a / 60) ++ ":" ++ two_digits (a mod 60))%string
  /\ String.length (formatTime a) = 5%nat
  /\ 0 <= a mod 60 < 60
  /\ (formatTime a = formatTime b -> a = b).
Proof.
  assert (forall s, 0 <= s < 6000 ->
            formatTime s = (two_digits (s / 60) ++ ":" ++ two_digits (s mod 60))%string)
    as Hshape.
  { intros s Hs. unfold formatTime. rewrite Z.rem_mod_nonneg by lia.
    pose proof (Z.mod_pos_bound s 60 ltac:(lia)).
    assert (0 <= s / 60 < 100)
      by (split; [apply Z.div_pos|apply Z.div_lt_upper_bound]; lia).
    rewrite !padStart0_two_digits by lia. reflexivity. }
  intros Ha Hb. split; [by apply Hshape|]. split; [by rewrite Hshape|].
  split; [apply Z.mod_pos_bound; lia|].
  rewrite !Hshape by assumption. intros Heq.
  unfold two_digits in Heq. simpl in Heq.
  injection Heq as Ha1 Ha0 Hs1 Hs0.
  pose proof (Z.mod_pos_bound a 60 ltac:(lia)).
  pose proof (Z.mod_pos_bound b 60 ltac:(lia)).
  assert (0 <= a / 60 < 100)
    by (split; [apply Z.div_pos|apply Z.div_lt_upper_bound]; lia).
  assert (0 <= b / 60 < 100)
    by (split; [apply Z.div_pos|apply Z.div_lt_upper_bound]; lia).
  assert (a / 60 = b / 60) as Hmin.
  { apply two_digits_inj; try lia. unfold two_digits. by rewrite Ha1, Ha0. }
  assert (a mod 60 = b mod 60) as Hs.
  { apply two_digits_inj; try lia. unfold two_digits. by rewrite Hs1, Hs0. }
  rewrite (Z.div_mod a 60), (Z.div_mod b 60) by lia. lia.
Qed.

Lemma formatTime_mm_ss_witness :
  0 <= 1500 < 6000 /\ 0 <= 299 < 6000
  /\ formatTime 1500 = "25:00" /\ formatTime 299 = "04:59"
  /\ (formatTime 1500 = formatTime 299 -> 1500 = 299).
Proof.
  assert (0 <= 1500 < 6000) as H1 by lia.
  assert (0 <= 299 < 6000) as H2 by lia.
  destruct (formatTime_mm_ss 1500 299 H1 H2) as (_ & _ & _ & Hinj).
  repeat split; try lia; try (vm_compute; reflexivity). exact Hinj.
Defined.

Lemma round_div60_minutes (m : Z) : round_div60 (m * 60) = m.
Proof.
  unfold round_div60.
  replace (m * 60 + 30) with (30 + m * 60) by lia.
  rewrite Z.div_add by lia. reflexivity.
Qed.

(** X11.  The slider is consistent with the state: in every state that the
    page can be in it shows the configured duration exactly
    ([totalMinutes * 60 = totalDuration], one of its own values), and after
    it is moved to a value it shows that value while the time display reads
    that many minutes and no seconds. *)
Theorem slider_shows_the_duration (s : Home) (minutes : Z) :
  page_inv s ->
  minutes ∈ stick_minutes ->
  totalMinutes s * 60 = totalDuration s
  /\ totalMinutes s ∈ stick_minutes
  /\ totalMinutes (onDurationInput minutes s) = minutes
  /\ formatTime (remaining (onDurationInput minutes s))
     = (two_digits minutes ++ ":00")%string.
Proof.
  intros ((m & Hm & Hdur) & _) Hminutes.
  assert (5 <= m <= 60) by (unfold stick_minutes in Hm; set_unfold; lia).
  assert (5 <= minutes <= 60) by (unfold stick_minutes in Hminutes; set_unfold; lia).
  assert (totalMinutes s = m) as Htm.
  { unfold totalMinutes. rewrite Hdur, round_div60_minutes. lia. }
  rewrite Htm. split; [lia|]. split; [exact Hm|]. split.
  - unfold totalMinutes, onDurationInput. simpl. rewrite round_div60_minutes. lia.
  - unfold onDurationInput. simpl.
    destruct (formatTime_mm_ss (minutes * 60) 0) as (Hshape & _); [lia|lia|].
    rewrite Hshape, Z.div_mul, Z.mod_mul by lia. reflexivity.
Qed.

Lemma slider_shows_the_duration_witness :
  page_inv (mkHome 1500 1500 false [])
  /\ 45 ∈ stick_minutes
  /\ totalMinutes (mkHome 1500 1500 false []) = 25
  /\ totalMinutes (onDurationInput 45 (mkHome 1500 1500 false [])) = 45.
Proof.
  assert (page_inv (mkHome 1500 1500 false [])) as H1 by apply (page_inv_initial []).
  assert (45 ∈ stick_minutes) as H2 by (unfold stick_minutes; set_solver).
  destruct (slider_shows_the_duration (mkHome 1500 1500 false []) 45 H1 H2)
    as (_ & _ & H3 & _).
  split; [exact H1|]. split; [exact H2|]. split; [reflexivity|exact H3].
Defined.

Section DisplayProperties.
Context `{codec : JSON}.

(** X12.  The list of sessions shows for a new entry the number of minutes
    that the slider showed when the session ran. *)
Theorem new_entry_shows_slider_minutes (now : Z) (s : Home) (w : World) :
  page_inv s ->
  isRunning s = true ->
  remaining s <= 1 ->
  exists s' w' entry,
    tick now s w = (Ok s', w')
    /\ head (history s') = Some entry
    /\ sessionMinutes entry = Some (totalMinutes s).
Proof.
  intros ((m & Hm & Hdur) & _) Hrun Hlast.
  assert (5 <= m <= 60) by (unfold stick_minutes in Hm; set_unfold; lia).
  eexists _, _, _. split; [apply (tick_completes now s w Hrun Hlast)|].
  split; [reflexivity|].
  unfold sessionMinutes, totalMinutes. simpl.
  rewrite Hdur, round_div60_minutes. f_equal. lia.
Qed.

Lemma next_state_numeric (e : ui_event) (s : Home) :
  Forall (fun x => numeric_fields x = true) (history s) ->
  Forall (fun x => numeric_fields x = true) (history (next_state e s)).
Proof.
  intros Hall. destruct e as [| |minutes|now]; simpl;
    try (unfold onPlayPause, handlePause, handleStart;
         repeat (case_match; simpl); exact Hall).
  destruct (isRunning s); [|exact Hall].
  destruct (remaining s <=? 1); simpl; [|exact Hall].
  constructor; [reflexivity|by apply Forall_take].
Qed.

Lemma ui_run_numeric (events : list ui_event) (s s' : Home) (w w' : World) :
  ui_run events s w = (Ok s', w') ->
  Forall (fun x => numeric_fields x = true) (history s) ->
  Forall (fun x => numeric_fields x = true) (history s').
Proof.
  revert s w. induction events as [|e events IH]; intros s w Hrun Hall.
  - injection Hrun as <- <-. exact Hall.
  - simpl in Hrun. unfold bind in Hrun. rewrite ui_step_run in Hrun.
    eapply IH; [exact Hrun|]. by apply next_state_numeric.
Qed.

Lemma loadHistory_numeric (w : World) (h : list jsval) (w' : World) :
  loadHistory w = (Ok h, w') ->
  Forall (fun x => numeric_fields x = true) h.
Proof.
  intros Hload.
  destruct (window w) as [win|] eqn:Hw.
  2: { rewrite loadHistory_no_window in Hload by done. injection Hload as <- <-.
       constructor. }
  destruct (storage_read_fault win) eqn:Hf.
  { rewrite (loadHistory_read_fault w win) in Hload by done.
    injection Hload as <- <-. constructor. }
  destruct (localStorage win !! STORAGE_KEY) as [raw|] eqn:Hraw.
  2: { rewrite (loadHistory_missing w win) in Hload by auto.
       injection Hload as <- <-. constructor. }
  destruct (string_dec raw "") as [->|Hne].
  { rewrite (loadHistory_missing w win) in Hload by auto.
    injection Hload as <- <-. constructor. }
  destruct (JSON_parse raw) as [v|] eqn:Hp.
  2: { rewrite (loadHistory_syntax_error w win raw) in Hload by done.
       injection Hload as <- <-. constructor. }
  assert ((exists items, v = JArr items) \/ (forall items, v <> JArr items))
    as [[items ->]|Hv] by (destruct v; eauto; right; discriminate).
  2: { rewrite (loadHistory_not_array w win raw v) in Hload by done.
       injection Hload as <- <-. constructor. }
  destruct (null_elem_dec items) as [Hnull|Hnull].
  { rewrite (loadHistory_null_entry w win raw items) in Hload by done.
    injection Hload as <- <-. constructor. }
  rewrite (loadHistory_array w win raw items) in Hload by done.
  injection Hload as <- <-.
  rewrite (Array_sort_perm (List.filter numeric_fields items)).
  apply filter_numeric.
Qed.


End DisplayProperties.

(** ** The daily quote, day by day *)

Lemma all_below_spec (n : N) (check : Z -> bool) :
  all_below n check = true ->
  forall i, 0 <= i < Z.of_N n -> check i = true.
Proof.
  unfold all_below.
  set (f := fun acc : bool * Z => (fst acc && check (snd acc), snd acc + 1)).
  assert (forall k : N,
            snd (N.iter k f (true, 0)) = Z.of_N k
            /\ (fst (N.iter k f (true, 0)) = true ->
                forall i, 0 <= i < Z.of_N k -> check i = true)) as Hiter.
  { induction k as [|k [IHs IHf]] using N.peano_ind.
    - split; [reflexivity|]. intros _ i Hi. lia.
    - rewrite N.iter_succ. unfold f at 1. cbn [fst snd]. rewrite IHs.
      split; [lia|]. intros [Hok Hk]%andb_prop i Hi.
      rewrite IHs in Hk.
      destruct (decide (i = Z.of_N k)) as [->|Hne]; [exact Hk|].
      apply IHf; [exact Hok|lia]. }
  intros Hall. exact (proj2 (Hiter n) Hall).
Qed.

Lemma years_ok (yoe : Z) : 0 <= yoe < 400 -> year_ok yoe = true.
Proof. apply (all_below_spec 400 year_ok). vm_compute. reflexivity. Qed.

Lemma days_ok (doy : Z) : 0 <= doy < 366 -> day_ok doy = true.
Proof. apply (all_below_spec 366 day_ok). vm_compute. reflexivity. Qed.

Lemma civil_from_days_split (day : Z) :
  civil_from_days day =
  let z := day + 719468 in
  let yoe := year_of_era (z mod 146097) in
  let '(c, m, d) := month_day (z mod 146097 - year_start yoe) in
  (yoe + z / 146097 * 400 + c, m, d).
Proof. reflexivity. Qed.

(** The count of days that the formula divides by 365 never goes down. *)
Lemma era_count_step (d : Z) :
  0 <= d < 146096 ->
  d - d / 1460 + d / 36524 - d / 146096
  <= (d + 1) - (d + 1) / 1460 + (d + 1) / 36524 - (d + 1) / 146096.
Proof.
  intros Hd. destruct (decide (d + 1 = 146096)) as [Heq|Hne].
  - replace d with 146095 by lia. vm_compute. discriminate.
  - assert (d / 146096 = 0) as -> by (apply Z.div_small; lia).
    assert ((d + 1) / 146096 = 0) as -> by (apply Z.div_small; lia).
    pose proof (Z.div_le_mono d (d + 1) 36524 ltac:(lia) ltac:(lia)).
    pose proof (Z.div_le_mono (d + 1) (d + 1 * 1460) 1460 ltac:(lia) ltac:(lia)) as Hup.
    rewrite Z.div_add in Hup by lia. lia.
Qed.

Lemma year_of_era_mono (a b : Z) :
  0 <= a <= b -> b <= 146096 -> year_of_era a <= year_of_era b.
Proof.
  intros Hab Hb. unfold year_of_era. apply Z.div_le_mono; [lia|].
  assert (forall n : nat, a + Z.of_nat n <= 146096 ->
            a - a / 1460 + a / 36524 - a / 146096
            <= (a + Z.of_nat n) - (a + Z.of_nat n) / 1460
               + (a + Z.of_nat n) / 36524 - (a + Z.of_nat n) / 146096) as Hsteps.
  { induction n as [|n IH]; intros Hn.
    - rewrite Z.add_0_r. lia.
    - etransitivity; [apply IH; lia|].
      replace (a + Z.of_nat (S n)) with (a + Z.of_nat n + 1) by lia.
      apply era_count_step. lia. }
  specialize (Hsteps (Z.to_nat (b - a))).
  replace (a + Z.of_nat (Z.to_nat (b - a))) with b in Hsteps by lia.
  apply Hsteps. lia.
Qed.

Lemma year_ok_facts (y : Z) :
  0 <= y < 400 ->
  year_of_era (year_start y) = y /\ year_of_era (year_end y) = y
  /\ 364 <= year_end y - year_start y <= 365.
Proof.
  intros Hy. pose proof (years_ok y Hy) as Hok. unfold year_ok in Hok.
  repeat (apply andb_prop in Hok as [Hok ?]). lia.
Qed.

Lemma year_start_0 : year_start 0 = 0.
Proof. reflexivity. Qed.

(** Every day of an era lies in one of its 400 years. *)
Lemma locate_year (doe : Z) :
  0 <= doe < 146097 ->
  exists y, 0 <= y < 400 /\ year_start y <= doe <= year_end y.
Proof.
  intros Hdoe.
  assert (forall n : nat, (n <= 399)%nat -> doe <= year_end (Z.of_nat n) ->
            exists y, 0 <= y <= Z.of_nat n /\ year_start y <= doe <= year_end y)
    as Hsearch.
  { induction n as [|n IH]; intros Hn Hle.
    - exists 0. rewrite year_start_0. change (Z.of_nat 0) with 0 in *. lia.
    - destruct (Z_le_gt_dec doe (year_end (Z.of_nat n))) as [Hin|Hout].
      + destruct (IH ltac:(lia) Hin) as (y & Hy & Hrange). exists y. lia.
      + exists (Z.of_nat (S n)). split; [lia|]. split; [|exact Hle].
        unfold year_end in Hout.
        destruct (Z.eqb_spec (Z.of_nat n) 399); [lia|].
        replace (Z.of_nat (S n)) with (Z.of_nat n + 1) by lia. lia. }
  destruct (Hsearch 399%nat) as (y & Hy & Hrange); [lia| |exists y; lia].
  change (year_end (Z.of_nat 399)) with 146096. lia.
Qed.

Lemma year_start_range (y : Z) :
  0 <= y <= 399 -> 0 <= year_start y <= 145734.
Proof.
  intros Hy. unfold year_start. Z.to_euclidean_division_equations. lia.
Qed.

Lemma year_end_range (y : Z) :
  0 <= y < 400 -> year_start y <= year_end y <= 146096.
Proof.
  intros Hy. destruct (year_ok_facts y Hy) as (_ & _ & Hlen).
  split; [lia|]. unfold year_end. destruct (Z.eqb_spec y 399); [lia|].
  pose proof (year_start_range (y + 1) ltac:(lia)). lia.
Qed.

(** A day between the first and the last day of a year is a day of that
    year. *)
Lemma year_of_era_in (y x : Z) :
  0 <= y < 400 -> year_start y <= x <= year_end y -> year_of_era x = y.
Proof.
  intros Hy Hx.
  destruct (year_ok_facts y Hy) as (Hs & He & Hlen).
  pose proof (year_start_range y ltac:(lia)).
  pose proof (year_end_range y Hy).
  pose proof (year_of_era_mono (year_start y) x ltac:(lia) ltac:(lia)).
  pose proof (year_of_era_mono x (year_end y) ltac:(lia) ltac:(lia)).
  lia.
Qed.

(** The year and the day of the year of a day of an era. *)
Lemma year_of_era_spec (doe : Z) :
  0 <= doe < 146097 ->
  let y := year_of_era doe in
  0 <= y < 400 /\ year_start y <= doe <= year_end y
  /\ 0 <= doe - year_start y <= 365.
Proof.
  intros Hdoe. destruct (locate_year doe Hdoe) as (y & Hy & Hrange).
  destruct (year_ok_facts y Hy) as (_ & _ & Hlen).
  cbv zeta. rewrite (year_of_era_in y doe Hy Hrange). lia.
Qed.

Lemma quote_hash_split (day : Z) :
  quote_hash day =
  let z := day + 719468 in
  let yoe := year_of_era (z mod 146097) in
  let '(c, m, d) := month_day (z mod 146097 - year_start yoe) in
  yoe + z / 146097 * 400 + c + m + d.
Proof.
  unfold quote_hash. rewrite civil_from_days_split. cbv zeta.
  destruct (month_day _) as [[c m] d]. reflexivity.
Qed.

Lemma day_ok_facts (doy : Z) :
  0 <= doy < 366 ->
  let '(c, m, d) := month_day doy in
  let '(c', m', d') := month_day (doy + 1) in
  1 <= m <= 12 /\ 1 <= d <= 31
  /\ c = (if 306 <=? doy then 1 else 0)
  /\ (doy <> 365 -> (c' + m' + d' - (c + m + d)) mod 6 <> 0).
Proof.
  intros Hdoy. pose proof (days_ok doy Hdoy) as Hok. unfold day_ok in Hok.
  destruct (month_day doy) as [[c m] d].
  destruct (month_day (doy + 1)) as [[c' m'] d'].
  repeat (apply andb_prop in Hok as [Hok ?]).
  repeat split; lia.
Qed.

(** Every day has a month from 1 to 12 and a day of the month from 1 to 31;
    from 1 January 1970 to 31 December 9999 the year has four digits. *)
Lemma civil_from_days_range (day : Z) :
  let '(y, m, d) := civil_from_days day in
  1 <= m <= 12 /\ 1 <= d <= 31
  /\ (0 <= day < 2932897 -> 0 <= y <= 9999).
Proof.
  rewrite civil_from_days_split. cbv zeta.
  set (z := day + 719468).
  pose proof (Z.mod_pos_bound z 146097 ltac:(lia)) as Hdoe.
  destruct (year_of_era_spec (z mod 146097) Hdoe) as (Hy & Hrange & Hdoy).
  set (y := year_of_era (z mod 146097)) in *.
  pose proof (day_ok_facts (z mod 146097 - year_start y) ltac:(lia)) as Hday.
  destruct (month_day (z mod 146097 - year_start y)) as [[c m] d].
  destruct (month_day (z mod 146097 - year_start y + 1)) as [[c' m'] d'].
  destruct Hday as (Hm & Hd & Hc & _).
  split; [exact Hm|]. split; [exact Hd|]. intros Hrange_day.
  pose proof (Z.div_mod z 146097 ltac:(lia)) as Hz.
  assert (4 <= z / 146097 <= 24) as He by (unfold z in *; lia).
  destruct (Z.leb_spec 306 (z mod 146097 - year_start y)) as [Hjan|Hmar]; subst c.
  - split; [lia|].
    destruct (decide (z / 146097 = 24)) as [H24|Hlt]; [|lia].
    destruct (decide (y = 399)) as [H399|Hne]; [|lia].
    subst y. rewrite H399 in *. change (year_start 399) with 145731 in *.
    unfold z in *. lia.
  - lia.
Qed.

(** From one day to the next the sum of year, month and day moves on to
    another residue modulo 6. *)
Lemma quote_hash_step (day : Z) :
  (quote_hash (day + 1) - quote_hash day) mod 6 <> 0.
Proof.
  rewrite !quote_hash_split. cbv zeta.
  replace (day + 1 + 719468) with (day + 719468 + 1) by lia.
  set (z := day + 719468).
  pose proof (Z.mod_pos_bound z 146097 ltac:(lia)) as Hdoe.
  pose proof (Z.div_mod z 146097 ltac:(lia)) as Hz.
  destruct (decide (z mod 146097 = 146096)) as [Hlast|Hnot].
  - assert ((z + 1) / 146097 = z / 146097 + 1) as ->
      by (symmetry; apply (Z.div_unique (z + 1) 146097 _ 0); lia).
    assert ((z + 1) mod 146097 = 0) as ->
      by (symmetry; apply (Z.mod_unique (z + 1) 146097 (z / 146097 + 1) 0); lia).
    rewrite Hlast.
    change (year_of_era 146096) with 399. change (year_of_era 0) with 0.
    change (month_day (146096 - year_start 399)) with (1, 2, 29).
    change (month_day (0 - year_start 0)) with (0, 3, 1).
    cbv beta iota.
    replace (0 + (z / 146097 + 1) * 400 + 0 + 3 + 1
             - (399 + z / 146097 * 400 + 1 + 2 + 29)) with (-27) by lia.
    vm_compute. discriminate.
  - assert ((z + 1) / 146097 = z / 146097) as ->
      by (symmetry; apply (Z.div_unique (z + 1) 146097 _ (z mod 146097 + 1)); lia).
    assert ((z + 1) mod 146097 = z mod 146097 + 1) as ->
      by (symmetry; apply (Z.mod_unique (z + 1) 146097 (z / 146097)); lia).
    set (doe := z mod 146097) in *.
    destruct (year_of_era_spec doe Hdoe) as (Hy & Hrange & Hdoy).
    set (y := year_of_era doe) in *.
    pose proof (year_end_range y Hy) as Hend.
    destruct (Z_le_gt_dec (doe + 1) (year_end y)) as [Hsame|Hnext].
    + rewrite (year_of_era_in y (doe + 1) Hy) by lia.
      destruct (year_ok_facts y Hy) as (_ & _ & Hlen).
      pose proof (day_ok_facts (doe - year_start y) ltac:(lia)) as Hday.
      replace (doe + 1 - year_start y) with (doe - year_start y + 1) by lia.
      destruct (month_day (doe - year_start y)) as [[c m] d].
      destruct (month_day (doe - year_start y + 1)) as [[c' m'] d'].
      destruct Hday as (_ & _ & _ & Hstep).
      replace (y + z / 146097 * 400 + c' + m' + d'
               - (y + z / 146097 * 400 + c + m + d))
        with (c' + m' + d' - (c + m + d)) by lia.
      apply Hstep. lia.
    + assert (doe = year_end y) as Hdoe_end by lia.
      assert (y <> 399) as Hy399.
      { intros Heq. rewrite Heq in Hdoe_end.
        change (year_end 399) with 146096 in Hdoe_end. lia. }
      assert (doe + 1 = year_start (y + 1)) as Hstart.
      { rewrite Hdoe_end. unfold year_end.
        destruct (Z.eqb_spec y 399); [lia|]. lia. }
      destruct (year_ok_facts (y + 1)) as (Hs' & _); [lia|].
      destruct (year_ok_facts y Hy) as (_ & _ & Hlen).
      rewrite Hstart, Hs'. replace (year_start (y + 1) - year_start (y + 1)) with 0 by lia.
      change (month_day 0) with (0, 3, 1). cbv beta iota.
      assert (doe - year_start y = 364 \/ doe - year_start y = 365) as [-> | ->]
        by lia.
      * change (month_day 364) with (1, 2, 28). cbv beta iota.
        replace (y + 1 + z / 146097 * 400 + 0 + 3 + 1
                 - (y + z / 146097 * 400 + 1 + 2 + 28)) with (-26) by lia.
        vm_compute. discriminate.
      * change (month_day 365) with (1, 2, 29). cbv beta iota.
        replace (y + 1 + z / 146097 * 400 + 0 + 3 + 1
                 - (y + z / 146097 * 400 + 1 + 2 + 29)) with (-27) by lia.
        vm_compute. discriminate.
Qed.

Lemma pads_well_2 (n : Z) : 0 <= n < 100 -> pads_well 2 n = true.
Proof. apply (all_below_spec 100 (pads_well 2)). vm_compute. reflexivity. Qed.

Lemma pads_well_4 (n : Z) : 0 <= n < 10000 -> pads_well 4 n = true.
Proof. apply (all_below_spec 10000 (pads_well 4)). vm_compute. reflexivity. Qed.

Lemma pads_well_facts (width : nat) (n : Z) :
  pads_well width n = true ->
  String.length (padStart0 width (pretty n)) = width
  /\ free_of "-" (padStart0 width (pretty n)) = true
  /\ parseInt10 (padStart0 width (pretty n)) = Some n.
Proof.
  unfold pads_well. cbv zeta. intros H.
  apply andb_prop in H as [H Hparse]. apply andb_prop in H as [Hlen Hfree].
  apply Nat.eqb_eq in Hlen. apply bool_decide_eq_true in Hparse. auto.
Qed.

Lemma substring_all (s : string) : substring 0 (String.length s) s = s.
Proof. induction s as [|c s IH]; simpl; [reflexivity|]. by rewrite IH. Qed.

Lemma split_on_free (sep : ascii) (a : string) :
  free_of sep a = true -> split_on sep a = [a].
Proof.
  induction a as [|c a IH]; simpl; [reflexivity|].
  intros [Hc Ha]%andb_prop. apply negb_true_iff in Hc. rewrite Hc, (IH Ha).
  reflexivity.
Qed.

Lemma split_on_app (sep : ascii) (a b : string) :
  free_of sep a = true ->
  split_on sep (a ++ String sep b) = a :: split_on sep b.
Proof.
  induction a as [|c a IH]; simpl.
  - intros _. by rewrite Ascii.eqb_refl.
  - intros [Hc Ha]%andb_prop. apply negb_true_iff in Hc. rewrite Hc, (IH Ha).
    reflexivity.
Qed.

Lemma QUOTES_lookup_inj (i j : Z) :
  0 <= i < 6 -> 0 <= j < 6 ->
  QUOTES !! Z.to_nat i = QUOTES !! Z.to_nat j -> i = j.
Proof.
  intros Hi Hj.
  assert (i = 0 \/ i = 1 \/ i = 2 \/ i = 3 \/ i = 4 \/ i = 5) as Hci by lia.
  assert (j = 0 \/ j = 1 \/ j = 2 \/ j = 3 \/ j = 4 \/ j = 5) as Hcj by lia.
  repeat (destruct Hci as [-> | Hci]); try subst i;
    repeat (destruct Hcj as [-> | Hcj]); try subst j;
    try reflexivity; intros Heq; vm_compute in Heq; discriminate.
Qed.

(** The selector on a date with a four-digit year. *)
Lemma todaysQuote_formula (t : Z) :
  0 <= t < end_of_year_9999 ->
  todaysQuote t = QUOTES !! Z.to_nat (quote_hash (Day t) mod 6)
  /\ 0 <= quote_hash (Day t).
Proof.
  intros Ht.
  assert (0 <= Day t < 2932897) as Hday.
  { unfold Day, msPerDay, end_of_year_9999 in *.
    split; [apply Z.div_pos; lia|apply Z.div_lt_upper_bound; lia]. }
  unfold todaysQuote. rewrite dayIndex_is_utc_date.
  unfold quote_hash, iso_date.
  pose proof (civil_from_days_range (Day t)) as Hrange.
  destruct (civil_from_days (Day t)) as [[y m] d].
  destruct Hrange as (Hm & Hd & Hy). specialize (Hy Hday).
  unfold iso_year.
  assert ((0 <=? y) && (y <=? 9999) = true) as -> by lia.
  destruct (pads_well_facts 4 y (pads_well_4 y ltac:(lia))) as (Hly & Hfy & Hpy).
  destruct (pads_well_facts 2 m (pads_well_2 m ltac:(lia))) as (Hlm & Hfm & Hpm).
  destruct (pads_well_facts 2 d (pads_well_2 d ltac:(lia))) as (Hld & Hfd & Hpd).
  set (sy := padStart0 4 (pretty y)) in *.
  set (sm := padStart0 2 (pretty m)) in *.
  set (sd := padStart0 2 (pretty d)) in *.
  assert (String.length (sy ++ "-" ++ sm ++ "-" ++ sd) = 10%nat) as Hlen.
  { rewrite !string_length_app, Hly, Hlm, Hld. reflexivity. }
  rewrite <- Hlen at 1. rewrite substring_all.
  change (sy ++ "-" ++ sm ++ "-" ++ sd)%string
    with (sy ++ String "-" (sm ++ String "-" sd))%string.
  rewrite (split_on_app "-" sy) by assumption.
  rewrite (split_on_app "-" sm) by assumption.
  rewrite (split_on_free "-" sd) by assumption.
  simpl fold_left. rewrite Hpy, Hpm, Hpd. simpl num_add. cbv zeta.
  change (Z.of_nat (length QUOTES)) with 6. cbv beta iota.
  change (0 + y + m + d) with (y + m + d).
  rewrite Z.rem_mod_nonneg by lia.
  pose proof (Z.mod_pos_bound (y + m + d) 6 ltac:(lia)) as Hmod.
  destruct (Z.ltb_spec ((y + m + d) mod 6) 0) as [Hneg|_]; [lia|].
  split; [reflexivity|lia].
Qed.

(** X14.  For every clock reading from 1970 to the end of the year 9999 the
    selector returns a quote, never [undefined]: the entry of [QUOTES] at
    index (year + month + day of the UTC date) modulo 6. *)
Theorem daily_quote_is_defined (t : Z) :
  0 <= t < end_of_year_9999 ->
  exists q,
    todaysQuote t = Some q
    /\ q ∈ QUOTES
    /\ QUOTES !! Z.to_nat (quote_hash (Day t) mod 6) = Some q.
Proof.
  intros Ht. destruct (todaysQuote_formula t Ht) as [Hq Hpos].
  pose proof (Z.mod_pos_bound (quote_hash (Day t)) 6 ltac:(lia)) as Hmod.
  destruct (lookup_lt_is_Some_2 QUOTES (Z.to_nat (quote_hash (Day t) mod 6)))
    as [q Hlook].
  { change (length QUOTES) with 6%nat. lia. }
  exists q. rewrite Hq. split; [exact Hlook|].
  split; [|exact Hlook]. by apply list_elem_of_lookup_2 in Hlook.
Qed.

Lemma daily_quote_is_defined_witness :
  0 <= 1715043845123 < end_of_year_9999
  /\ exists q, todaysQuote 1715043845123 = Some q /\ q ∈ QUOTES.
Proof.
  assert (0 <= 1715043845123 < end_of_year_9999) as H
    by (unfold end_of_year_9999; lia).
  split; [exact H|].
  destruct (daily_quote_is_defined 1715043845123 H) as (q & Hq & Hin & _).
  exists q. split; [exact Hq|exact Hin].
Defined.

(** X15.  The quote changes at every UTC midnight: from 1970 to the end of
    the year 9999, the selector never returns the same entry for a clock
    reading and for the reading one day later. *)
Theorem daily_quote_changes_every_day (t : Z) :
  0 <= t ->
  t + msPerDay < end_of_year_9999 ->
  todaysQuote (t + msPerDay) <> todaysQuote t.
Proof.
  intros Ht Hnext.
  assert (0 < msPerDay) as Hms by (unfold msPerDay; lia).
  destruct (todaysQuote_formula t ltac:(lia)) as [Hq Hpos].
  destruct (todaysQuote_formula (t + msPerDay) ltac:(lia)) as [Hq' Hpos'].
  assert (Day (t + msPerDay) = Day t + 1) as Hday.
  { unfold Day. replace (t + msPerDay) with (t + 1 * msPerDay) by lia.
    rewrite Z.div_add by lia. reflexivity. }
  rewrite Hday in *. rewrite Hq, Hq'. intros Heq.
  pose proof (quote_hash_step (Day t)) as Hstep.
  pose proof (Z.mod_pos_bound (quote_hash (Day t)) 6 ltac:(lia)).
  pose proof (Z.mod_pos_bound (quote_hash (Day t + 1)) 6 ltac:(lia)).
  apply QUOTES_lookup_inj in Heq; [|lia|lia].
  apply Hstep. rewrite Zminus_mod, Heq, Z.sub_diag. reflexivity.
Qed.

Lemma daily_quote_changes_every_day_witness :
  0 <= 1715043845123
  /\ 1715043845123 + msPerDay < end_of_year_9999
  /\ todaysQuote (1715043845123 + msPerDay) <> todaysQuote 1715043845123.
Proof.
  assert (0 <= 1715043845123) as H1 by lia.
  assert (1715043845123 + msPerDay < end_of_year_9999) as H2
    by (unfold msPerDay, end_of_year_9999; lia).
  split; [exact H1|]. split; [exact H2|].
  exact (daily_quote_changes_every_day 1715043845123 H1 H2).
Defined.

(** ** The stored history across renders *)

Section ReloadProperties.
Context `{codec : JSON}.

(** X16.  [loadHistory] never raises, whatever the storage holds: without a
    window, with a storage that refuses to be read, with a text that is no
    JSON, no array or an array with unusable entries it returns a list.  It
    never writes to the storage and never rings; when it logs an error the
    list is empty; and the list it returns holds only entries with numeric
    [endedAt] and [duration], newest first. *)
Theorem load_history_never_raises (w : World) :
  exists h w',
    loadHistory w = (Ok h, w')
    /\ window w' = window w
    /\ chime_calls w' = chime_calls w
    /\ (w' = w \/ h = [] /\ exists e, w' = logged "Failed to parse history" e w)
    /\ Forall (fun entry => numeric_fields entry = true) h
    /\ ordered_desc h = true.
Proof.
  destruct (loadHistory_returns w) as (h & w' & Hload & Hord & _ & Hwin & Hch & Hlog).
  exists h, w'. split; [exact Hload|]. split; [exact Hwin|]. split; [exact Hch|].
  split; [exact Hlog|]. split; [|exact Hord].
  exact (loadHistory_numeric w h w' Hload).
Qed.

(** X17.  A stored array without [null] entries is read without an error:
    the result holds exactly the entries with numeric [endedAt] and
    [duration] (each as often as it is stored), newest first, and the world
    is untouched.  When the usable entries are stored newest first, they
    come back in the stored order. *)
Theorem load_keeps_the_valid_entries
    (w : World) (win : Window) (raw : string) (items : list jsval) :
  window w = Some win ->
  storage_read_fault win = false ->
  localStorage win !! STORAGE_KEY = Some raw ->
  JSON_parse raw = Some (JArr items) ->
  JNull ∉ items ->
  exists h,
    loadHistory w = (Ok h, w)
    /\ h ≡ₚ List.filter numeric_fields items
    /\ ordered_desc h = true
    /\ (ordered_desc (List.filter numeric_fields items) = true ->
        h = List.filter numeric_fields items).
Proof.
  intros Hw Hf Hraw Hparse Hnull.
  assert (raw <> "") as Hne.
  { intros ->. rewrite JSON_parse_empty in Hparse. discriminate. }
  exists (Array_sort by_endedAt_desc (List.filter numeric_fields items)).
  assert (Forall (fun y => is_Some (num_prop "endedAt" y))
            (List.filter numeric_fields items)) as Hnum.
  { eapply Forall_impl; [apply filter_numeric|]. apply numeric_fields_endedAt. }
  split; [exact (loadHistory_array w win raw items Hw Hf Hraw Hne Hparse Hnull)|].
  split; [apply Array_sort_perm|].
  split; [exact (Array_sort_ordered _ Hnum)|].
  intros Hord. exact (Array_sort_ordered_id _ Hnum Hord).
Qed.

(** The storage at the end of a visit, in a browser. *)
Lemma page_run_storage (events : list ui_event) (w : World) (win : Window)
    (s : Home) (w' : World) :
  window w = Some win ->
  page events w = (Ok s, w') ->
  Forall (fun entry => numeric_fields entry = true) (history s)
  /\ exists win',
       window w' = Some win'
       /\ storage_read_fault win' = storage_read_fault win
       /\ localStorage win' !! STORAGE_KEY = Some (JSON_stringify (JArr (history s))).
Proof.
  intros Hw Hpage.
  destruct (page_run events w) as (h & w1 & s' & w2 & Hload & Hpage' & Hrun & Hw1).
  rewrite Hpage in Hpage'. injection Hpage' as <- <-.
  split.
  { exact (ui_run_numeric events _ _ _ _ Hrun (loadHistory_numeric w h w1 Hload)). }
  destruct (ui_run_run events (mkHome DEFAULT_DURATION DEFAULT_DURATION false h)
              (persisted h (persisted [] w1)))
    as (s2 & w3 & Hrun2 & _ & Hsync & Hsame & _).
  rewrite Hrun in Hrun2. injection Hrun2 as <- <-.
  assert (synced h (persisted h (persisted [] w1))) as H0.
  { unfold synced. rewrite !window_persisted, Hw1, Hw. simpl. apply lookup_insert_eq. }
  specialize (Hsync H0). unfold synced in Hsync.
  unfold same_elsewhere in Hsame. rewrite !window_persisted, Hw1, Hw in Hsame.
  simpl in Hsame. destruct (window w') as [win'|]; [|done].
  destruct Hsame as (_ & Hfault & _).
  exists win'. split; [reflexivity|]. split; [exact Hfault|exact Hsync].
Qed.

(** X18.  The history survives a reload.  After any visit in a browser whose
    storage can be read, when the history of the page is ordered newest
    first and the codec reads its print back, a new first render shows the
    same history and leaves the stored text as it is. *)
Theorem reload_restores_history
    (events : list ui_event) (w : World) (win : Window) (s : Home) (w' : World) :
  window w = Some win ->
  storage_read_fault win = false ->
  page events w = (Ok s, w') ->
  ordered_desc (history s) = true ->
  JSON_parse (JSON_stringify (JArr (history s))) = Some (JArr (history s)) ->
  exists s2 w2,
    mount w' = (Ok s2, w2)
    /\ history s2 = history s
    /\ stored_text w2 = stored_text w'.
Proof.
  intros Hw Hf Hpage Hord Hround.
  destruct (page_run_storage events w win s w' Hw Hpage)
    as (Hnum & win' & Hw' & Hf' & Hraw).
  rewrite Hf in Hf'.
  assert (JNull ∉ history s) as Hnull.
  { intros Hin. rewrite Forall_forall in Hnum. specialize (Hnum _ Hin). discriminate. }
  assert (JSON_stringify (JArr (history s)) <> "") as Hne.
  { intros Heq. rewrite Heq, JSON_parse_empty in Hround. discriminate. }
  assert (loadHistory w' = (Ok (history s), w')) as Hload.
  { rewrite (loadHistory_array w' win' _ (history s) Hw' Hf' Hraw Hne Hround Hnull).
    rewrite filter_all by assumption.
    rewrite Array_sort_ordered_id; [reflexivity| |assumption].
    eapply Forall_impl; [exact Hnum|]. apply numeric_fields_endedAt. }
  destruct (mount_run w') as (h & w1 & Hload' & Hmount).
  rewrite Hload in Hload'. injection Hload' as <- <-.
  eexists _, _. split; [exact Hmount|]. split; [reflexivity|].
  unfold stored_text. rewrite !window_persisted, Hw'. simpl.
  rewrite lookup_insert_eq. symmetry. exact Hraw.
Qed.

End ReloadProperties.

(** ** The properties at sample inputs *)

Lemma page_keeps_invariant_witness :
  let s := mkHome 600 600 false [] in
  exists w',
    Forall ui_event_ok short_visit
    /\ page short_visit fresh_browser = (Ok s, w')
    /\ page_inv s.
Proof.
  intros s. exists (snd (page short_visit fresh_browser)).
  assert (Forall ui_event_ok short_visit) as H1.
  { unfold short_visit.
    constructor; [simpl; unfold stick_minutes; set_solver|].
    repeat (constructor; [exact I|]). constructor. }
  assert (page short_visit fresh_browser
          = (Ok s, snd (page short_visit fresh_browser))) as H2
    by (vm_compute; reflexivity).
  split; [exact H1|]. split; [exact H2|].
  exact (page_keeps_invariant short_visit fresh_browser s _ H1 H2).
Defined.

Lemma page_storage_tracks_history_witness :
  let win := mkWindow ∅ false true in
  window fresh_browser = Some win
  /\ exists s w',
       page two_sessions_visit fresh_browser = (Ok s, w')
       /\ stored_text w' = Some (JSON_stringify (JArr (history s))).
Proof.
  intros win.
  assert (window fresh_browser = Some win) as H by reflexivity.
  split; [exact H|].
  exact (page_storage_tracks_history two_sessions_visit fresh_browser win H).
Defined.

Lemma only_completion_touches_history_witness :
  let s := mkHome 300 120 true [session_entry 1000 300] in
  completes (Interval 2000) s = false
  /\ exists s',
       ui_step (Interval 2000) s fresh_browser = (Ok s', fresh_browser)
       /\ history s' = history s.
Proof.
  intros s.
  assert (completes (Interval 2000) s = false) as H by reflexivity.
  split; [exact H|].
  exact (only_completion_touches_history (Interval 2000) s fresh_browser H).
Defined.

Lemma pause_resume_is_invisible_witness :
  let before := [Slide 5; PressPlayPause; Interval 1000] in
  let after := [Interval 2000] in
  let s := mkHome 1500 1500 false [] in
  let s1 := mkHome 300 299 true [] in
  ui_run before s fresh_browser = (Ok s1, fresh_browser)
  /\ 0 < remaining s1
  /\ onPlayPause (onPlayPause s1) = s1
  /\ ui_run (before ++ PressPlayPause :: PressPlayPause :: after) s fresh_browser
     = ui_run (before ++ after) s fresh_browser.
Proof.
  intros before after s s1.
  assert (ui_run before s fresh_browser = (Ok s1, fresh_browser)) as H1
    by (vm_compute; reflexivity).
  assert (0 < remaining s1) as H2 by (simpl; lia).
  split; [exact H1|]. split; [exact H2|].
  exact (pause_resume_is_invisible before after s s1 fresh_browser fresh_browser H1 H2).
Defined.

Lemma sessions_file_newest_first_witness :
  let s := mkHome 300 300 false [] in
  0 < totalDuration s
  /\ (remaining s = totalDuration s \/ remaining s = 0)
  /\ Forall (fun clock => length clock = Z.to_nat (totalDuration s)) two_clocks
  /\ two_clocks <> []
  /\ exists s' w',
       sessions two_clocks s fresh_browser = (Ok s', w')
       /\ history s' = [session_entry 2299 300; session_entry 1299 300].
Proof.
  intros s.
  assert (0 < totalDuration s) as H1 by (simpl; lia).
  assert (remaining s = totalDuration s \/ remaining s = 0) as H2 by (left; reflexivity).
  assert (Forall (fun clock => length clock = Z.to_nat (totalDuration s)) two_clocks)
    as H3 by (repeat constructor).
  assert (two_clocks <> []) as H4 by discriminate.
  split; [exact H1|]. split; [exact H2|]. split; [exact H3|]. split; [exact H4|].
  destruct (sessions_file_newest_first two_clocks s fresh_browser H1 H2 H3 H4)
    as (s' & w' & Hrun & Hh & _).
  exists s', w'. split; [exact Hrun|]. rewrite Hh. reflexivity.
Defined.

Lemma session_ids_distinct_witness :
  let s := mkHome 300 300 false [] in
  0 < totalDuration s
  /\ (remaining s = totalDuration s \/ remaining s = 0)
  /\ Forall (fun clock => length clock = Z.to_nat (totalDuration s)) two_clocks
  /\ history s = []
  /\ increasing (map completion_time two_clocks) = true
  /\ exists s' w',
       sessions two_clocks s fresh_browser = (Ok s', w')
       /\ NoDup (map entry_id (history s')).
Proof.
  intros s.
  assert (0 < totalDuration s) as H1 by (simpl; lia).
  assert (remaining s = totalDuration s \/ remaining s = 0) as H2 by (left; reflexivity).
  assert (Forall (fun clock => length clock = Z.to_nat (totalDuration s)) two_clocks)
    as H3 by (repeat constructor).
  assert (history s = []) as H4 by reflexivity.
  assert (increasing (map completion_time two_clocks) = true) as H5
    by (vm_compute; reflexivity).
  split; [exact H1|]. split; [exact H2|]. split; [exact H3|]. split; [exact H4|].
  split; [exact H5|].
  exact (session_ids_distinct two_clocks s fresh_browser H1 H2 H3 H4 H5).
Defined.

Lemma abandoned_session_leaves_no_record_witness :
  let s := mkHome 300 0 false [session_entry 500 600] in
  isRunning s = false
  /\ (length [1000; 2000] < Z.to_nat (remaining (handleStart s)))%nat
  /\ exists s',
       ui_run (PressPlayPause :: map Interval [1000; 2000] ++ [PressReset]) s
         fresh_browser = (Ok s', fresh_browser)
       /\ history s' = history s
       /\ isRunning s' = false
       /\ remaining s' = totalDuration s'.
Proof.
  intros s.
  assert (isRunning s = false) as H1 by reflexivity.
  assert (length [1000; 2000] < Z.to_nat (remaining (handleStart s)))%nat as H2
    by (simpl; lia).
  split; [exact H1|]. split; [exact H2|].
  exact (abandoned_session_leaves_no_record [1000; 2000] PressReset s fresh_browser
           H1 H2 (or_introl eq_refl)).
Defined.

Lemma new_entry_shows_slider_minutes_witness :
  let s := mkHome 600 1 true [] in
  page_inv s /\ isRunning s = true /\ remaining s <= 1
  /\ exists s' w' entry,
       tick 1715043845123 s fresh_browser = (Ok s', w')
       /\ head (history s') = Some entry
       /\ sessionMinutes entry = Some 10.
Proof.
  intros s.
  assert (page_inv s) as H1.
  { split; [|split; [simpl; lia|simpl; lia]].
    exists 10. split; [unfold stick_minutes; set_solver|reflexivity]. }
  assert (isRunning s = true) as H2 by reflexivity.
  assert (remaining s <= 1) as H3 by (simpl; lia).
  split; [exact H1|]. split; [exact H2|]. split; [exact H3|].
  destruct (new_entry_shows_slider_minutes 1715043845123 s fresh_browser H1 H2 H3)
    as (s' & w' & entry & Ht & Hh & Hm).
  exists s', w', entry. split; [exact Ht|]. split; [exact Hh|exact Hm].
Defined.

Lemma load_keeps_the_valid_entries_witness :
  let raw := JSON_stringify (JArr mixed_entries) in
  let win := mkWindow {[ STORAGE_KEY := raw ]} false true in
  window (browser_with raw) = Some win
  /\ storage_read_fault win = false
  /\ localStorage win !! STORAGE_KEY = Some raw
  /\ JSON_parse raw = Some (JArr mixed_entries)
  /\ (JNull ∉ mixed_entries)
  /\ loadHistory (browser_with raw)
     = (Ok [session_entry 2000 300; session_entry 1000 300], browser_with raw).
Proof.
  intros raw win.
  assert (window (browser_with raw) = Some win) as H1 by reflexivity.
  assert (storage_read_fault win = false) as H2 by reflexivity.
  assert (localStorage win !! STORAGE_KEY = Some raw) as H3
    by (vm_compute; reflexivity).
  assert (JSON_parse raw = Some (JArr mixed_entries)) as H4
    by (vm_compute; reflexivity).
  assert (JNull ∉ mixed_entries) as H5.
  { unfold mixed_entries. intros Hin.
    repeat (apply elem_of_cons in Hin as [Hin|Hin]; [discriminate|]).
    by apply elem_of_nil in Hin. }
  split; [exact H1|]. split; [exact H2|]. split; [exact H3|]. split; [exact H4|].
  split; [exact H5|].
  destruct (load_keeps_the_valid_entries (browser_with raw) win raw mixed_entries
              H1 H2 H3 H4 H5) as (h & Hload & _).
  rewrite Hload. vm_compute in Hload. injection Hload as <-. reflexivity.
Defined.

Lemma reload_restores_history_witness :
  let win := mkWindow ∅ false true in
  let s := mkHome 300 0 false [session_entry 2299 300; session_entry 1299 300] in
  exists w',
    window fresh_browser = Some win
    /\ storage_read_fault win = false
    /\ page two_sessions_visit fresh_browser = (Ok s, w')
    /\ ordered_desc (history s) = true
    /\ JSON_parse (JSON_stringify (JArr (history s))) = Some (JArr (history s))
    /\ exists s2 w2,
         mount w' = (Ok s2, w2)
         /\ history s2 = history s
         /\ stored_text w2 = stored_text w'.
Proof.
  intros win s.
  exists (snd (page two_sessions_visit fresh_browser)).
  assert (window fresh_browser = Some win) as H1 by reflexivity.
  assert (storage_read_fault win = false) as H2 by reflexivity.
  assert (page two_sessions_visit fresh_browser
          = (Ok s, snd (page two_sessions_visit fresh_browser))) as H3
    by (vm_compute; reflexivity).
  assert (ordered_desc (history s) = true) as H4 by (vm_compute; reflexivity).
  assert (JSON_parse (JSON_stringify (JArr (history s))) = Some (JArr (history s)))
    as H5 by (vm_compute; reflexivity).
  split; [exact H1|]. split; [exact H2|]. split; [exact H3|]. split; [exact H4|].
  split; [exact H5|].
  exact (reload_restores_history two_sessions_visit fresh_browser win s _
           H1 H2 H3 H4 H5).
Defined.
